(** * clf2tab: Common / Combined Log Format to tab-separated records

    A shallow embedding of [clf2tab.cpp]: the field validators ([is_IP],
    [is_numeric], [is_user], [validate]), the timestamp normaliser
    ([logtimeToUnix]), the per-line scanner ([scanCLF]) and the driver loop
    of [main].

    Conventions of the embedding:
    - [std::string] is [string]; [str.c_str()] is the prefix before the
      first NUL byte, which is what a loop over [*head] walks over;
    - [short] counters are [Z] with the 16-bit wrap-around written out;
    - [throw "..."] and reads outside a string are results of type
      [outcome]: [Throw] carries the thrown literal, [Undefined] names the
      read that has no defined behaviour;
    - the globals [skip_validation] and [timezone] are passed explicitly,
      and live in the [World] record for the driver loop;
    - [strptime] and [mktime] belong to the C library, not to the program:
      they are the two methods of the class [Libc], and [glibc] is an
      instance that follows the GNU implementation. *)

From Stdlib Require Import ZArith String Ascii List Bool Lia DecimalString.
Import ListNotations.

Local Open Scope string_scope.
Local Open Scope Z_scope.

(** ** Characters and C strings *)

Module CType.

(** The value of a [char] once promoted to [int] ([char] is signed). *)
Definition code (c : ascii) : Z :=
  let n := Z.of_N (N_of_ascii c) in
  if n <? 128 then n else n - 256.

Definition in_range (lo hi c : ascii) : bool :=
  (code lo <=? code c) && (code c <=? code hi).

Definition isdigit (c : ascii) : bool := in_range "0" "9" c.
Definition isupper (c : ascii) : bool := in_range "A" "Z" c.
Definition islower (c : ascii) : bool := in_range "a" "z" c.
Definition isalpha (c : ascii) : bool := isupper c || islower c.
Definition isalnum (c : ascii) : bool := isalpha c || isdigit c.

(** space, \t, \n, \v, \f, \r *)
Definition isspace (c : ascii) : bool :=
  (c =? " ")%char || ((9 <=? code c) && (code c <=? 13)).

Definition tolower (c : ascii) : ascii :=
  if isupper c then ascii_of_N (N_of_ascii c + 32) else c.

End CType.
Import CType.

Definition NUL : ascii := "000"%char.

(** [str.c_str()] as seen by a loop that stops at the terminator. *)
Fixpoint c_str (str : string) : string :=
  match str with
  | EmptyString => EmptyString
  | String c rest => if (c =? NUL)%char then EmptyString else String c (c_str rest)
  end.

(** [*head] for a pointer into a terminated buffer, and [str[0]]. *)
Definition deref (head : string) : ascii :=
  match head with
  | EmptyString => NUL
  | String c _ => c
  end.

(** [++head]: reading [*(head+1)] is only done where [*head] is not NUL. *)
Definition advance (head : string) : string :=
  match head with
  | EmptyString => EmptyString
  | String _ rest => rest
  end.

Definition empty (s : string) : bool :=
  match s with
  | EmptyString => true
  | String _ _ => false
  end.

(** [token += c] *)
Definition push_char (token : string) (c : ascii) : string :=
  (token ++ String c EmptyString)%string.

(** A [short] holding the value [z] after conversion (16 bits, signed). *)
Definition to_short (z : Z) : Z := (z + 32768) mod 65536 - 32768.

(** ** Results of code that can throw or read out of bounds *)

Inductive fault : Set :=
| ReadBeforeBegin   (* [*(it-1)] with [it == line.begin()] *)
| ReadPastLine      (* [*(it-1)] with [it - 1] not below [line.end()] *)
| ReadPastEnd.      (* [logtime[i]] with [i > logtime.size()] *)

Inductive outcome (A : Type) : Type :=
| Ok (a : A)
| Throw (e : string)
| Undefined (u : fault).

Arguments Ok {A} a.
Arguments Throw {A} e.
Arguments Undefined {A} u.

Definition bind {A B : Type} (m : outcome A) (k : A -> outcome B) : outcome B :=
  match m with
  | Ok a => k a
  | Throw e => Throw e
  | Undefined u => Undefined u
  end.

Notation "x <- m ;; k" := (bind m (fun x => k))
  (at level 61, m at next level, right associativity).

(** ** The state enumeration *)

Inductive State : Set :=
| IP | CLIENT | USER | TIME
| URL_METHOD | URL_PATH | URL_PROTOCOL
| CODE | CONTENT | REFERER | AGENT.

(** The enumerator values, [IP=0] onwards. *)
Definition State_index (s : State) : Z :=
  match s with
  | IP => 0 | CLIENT => 1 | USER => 2 | TIME => 3
  | URL_METHOD => 4 | URL_PATH => 5 | URL_PROTOCOL => 6
  | CODE => 7 | CONTENT => 8 | REFERER => 9 | AGENT => 10
  end.

Definition State_eqb (a b : State) : bool := State_index a =? State_index b.

(** ** Field validators *)

Fixpoint is_IP_loop (head : string) (dots len : Z) : bool :=
  match head with
  | EmptyString => (dots =? 3) && (len <=? 15)
  | String c head' =>
      if negb (isdigit c || (c =? ".")%char) then false
      else is_IP_loop head'
             (if (c =? ".")%char then to_short (dots + 1) else dots)
             (to_short (len + 1))
  end.

Definition is_IP (str : string) : bool :=
  let head := c_str str in
  if (deref head =? "-")%char then true
  else is_IP_loop head 0 0.

Fixpoint is_numeric_loop (head : string) : bool :=
  match head with
  | EmptyString => true
  | String c head' =>
      if negb (isdigit c) && negb (c =? "-")%char then false
      else is_numeric_loop head'
  end.

Definition is_numeric (str : string) : bool := is_numeric_loop (c_str str).

Fixpoint is_user_loop (head : string) : bool :=
  match head with
  | EmptyString => true
  | String c head' =>
      if negb (isalnum c || (c =? "_")%char || (c =? "-")%char
               || (c =? "@")%char || (c =? ".")%char)
      then false
      else is_user_loop head'
  end.

Definition is_user (str : string) : bool :=
  let head := c_str str in
  if negb (isalpha (deref head) || (deref head =? "_")%char
           || ((deref head =? "-")%char && (deref (advance head) =? NUL)%char))
  then false
  else is_user_loop (advance head).

(** [IF_VALID(X)]: [if (skip_validation || (X))]. *)
Definition IF_VALID {A : Type} (skip_validation X : bool) (yes no : A) : A :=
  if skip_validation || X then yes else no.

Definition validate (skip_validation : bool) (state : State) (token : string)
  : outcome State :=
  match state with
  | IP =>
      IF_VALID skip_validation (is_IP token)
        (Ok CLIENT) (Throw "IP is invalid.")
  | CLIENT =>
      IF_VALID skip_validation (token =? "-")%string
        (Ok USER) (Throw "Client identity unsupported.")
  | USER =>
      IF_VALID skip_validation (is_user token)
        (Ok TIME) (Throw "USER is invalid.")
  | TIME =>
      IF_VALID skip_validation (is_numeric token)
        (Ok URL_METHOD) (Throw "TIME is not numeric.")
  | URL_METHOD => Ok URL_PATH
  | URL_PATH =>
      IF_VALID skip_validation (deref token =? "/")%char
        (Ok URL_PROTOCOL) (Throw "PATH does not begin with forward slash.")
  | URL_PROTOCOL => Ok CODE
  | CODE =>
      IF_VALID skip_validation (is_numeric token)
        (Ok CONTENT) (Throw "CODE is not numeric.")
  | CONTENT =>
      IF_VALID skip_validation (is_numeric token)
        (Ok REFERER) (Throw "CONTENT is not numeric.")
  | REFERER => Ok AGENT
  | AGENT => Ok AGENT
  end.

(** ** The C library: [strptime] and [mktime] *)

(** The fields of [struct tm] that [strptime] fills and [mktime] reads. *)
Record tm : Set := mk_tm {
  tm_sec : Z;
  tm_min : Z;
  tm_hour : Z;
  tm_mday : Z;
  tm_mon : Z;
  tm_year : Z;
  tm_isdst : Z
}.

Definition set_tm_isdst (t : tm) (v : Z) : tm :=
  mk_tm (tm_sec t) (tm_min t) (tm_hour t) (tm_mday t) (tm_mon t) (tm_year t) v.

(** [strptime buf fmt] is [None] where the C function returns [NULL] and
    the filled [struct tm] otherwise.  [mktime tz t] is the result of
    [mktime(&t)] on a host whose local standard time is [tz] seconds west
    of UTC, which is the value the global [timezone] has after the call. *)
Class Libc : Type := {
  strptime : string -> string -> option tm;
  mktime : Z -> tm -> Z
}.

Module Glibc.

Fixpoint skip_spaces (rp : string) : string :=
  match rp with
  | String c rp' => if isspace c then skip_spaces rp' else rp
  | EmptyString => rp
  end.

(** The tail of the do-while of [get_number]: up to [n] further digits,
    as long as [val * 10 <= to]. *)
Fixpoint get_digits (n : nat) (to val : Z) (rp : string) : Z * string :=
  match n, rp with
  | S n', String c rp' =>
      if (val * 10 <=? to) && isdigit c
      then get_digits n' to (val * 10 + (code c - code "0")) rp'
      else (val, rp)
  | _, _ => (val, rp)
  end.

(** [get_number (from, to, n)]: skips white space, reads at most [n]
    digits, fails outside [from..to]. *)
Definition get_number (from to : Z) (n : nat) (rp : string)
  : option (Z * string) :=
  match skip_spaces rp with
  | String c rp' =>
      if isdigit c then
        let (val, rest) := get_digits (Nat.pred n) to (code c - code "0") rp' in
        if (val <? from) || (to <? val) then None else Some (val, rest)
      else None
  | EmptyString => None
  end.

(** [match_string (cs1, s2)]: case-insensitive prefix test; the rest of
    [s2] on success. *)
Fixpoint match_string (cs1 s2 : string) : option string :=
  match cs1, s2 with
  | EmptyString, _ => Some s2
  | String a cs1', String b s2' =>
      if (tolower a =? tolower b)%char then match_string cs1' s2' else None
  | String _ _, EmptyString => None
  end.

Definition month_name : list string :=
  [ "January"; "February"; "March"; "April"; "May"; "June"; "July";
    "August"; "September"; "October"; "November"; "December" ].

Definition ab_month_name : list string :=
  [ "Jan"; "Feb"; "Mar"; "Apr"; "May"; "Jun"; "Jul";
    "Aug"; "Sep"; "Oct"; "Nov"; "Dec" ].

(** A match is kept when it consumed more than the longest one so far:
    [trp > rp_longest]. *)
Definition longer (name rp : string) (cnt : Z) (best : option (Z * string))
  : option (Z * string) :=
  match match_string name rp, best with
  | Some trp, None => Some (cnt, trp)
  | Some trp, Some (_, rp_longest) =>
      if (String.length trp <? String.length rp_longest)%nat
      then Some (cnt, trp) else best
  | None, _ => best
  end.

Fixpoint match_month (full ab : list string) (rp : string) (cnt : Z)
  (best : option (Z * string)) : option (Z * string) :=
  match full, ab with
  | f :: full', a :: ab' =>
      match_month full' ab' rp (cnt + 1) (longer a rp cnt (longer f rp cnt best))
  | _, _ => best
  end.

(** One conversion specification [%c]. *)
Definition conversion (c : ascii) (rp : string) (t : tm) : option (string * tm) :=
  if (c =? "d")%char then
    match get_number 1 31 2 rp with
    | Some (val, rp') =>
        Some (rp', mk_tm (tm_sec t) (tm_min t) (tm_hour t) val
                     (tm_mon t) (tm_year t) (tm_isdst t))
    | None => None
    end
  else if (c =? "b")%char then
    match match_month month_name ab_month_name rp 0 None with
    | Some (cnt, rp') =>
        Some (rp', mk_tm (tm_sec t) (tm_min t) (tm_hour t) (tm_mday t)
                     cnt (tm_year t) (tm_isdst t))
    | None => None
    end
  else if (c =? "Y")%char then
    match get_number 0 9999 4 rp with
    | Some (val, rp') =>
        Some (rp', mk_tm (tm_sec t) (tm_min t) (tm_hour t) (tm_mday t)
                     (tm_mon t) (val - 1900) (tm_isdst t))
    | None => None
    end
  else if (c =? "H")%char then
    match get_number 0 23 2 rp with
    | Some (val, rp') =>
        Some (rp', mk_tm (tm_sec t) (tm_min t) val (tm_mday t)
                     (tm_mon t) (tm_year t) (tm_isdst t))
    | None => None
    end
  else if (c =? "M")%char then
    match get_number 0 59 2 rp with
    | Some (val, rp') =>
        Some (rp', mk_tm (tm_sec t) val (tm_hour t) (tm_mday t)
                     (tm_mon t) (tm_year t) (tm_isdst t))
    | None => None
    end
  else if (c =? "S")%char then
    match get_number 0 61 2 rp with
    | Some (val, rp') =>
        Some (rp', mk_tm val (tm_min t) (tm_hour t) (tm_mday t)
                     (tm_mon t) (tm_year t) (tm_isdst t))
    | None => None
    end
  else if (c =? "Z")%char then
    (* the time zone name is recognised in the format and nothing of the
       input is consumed *)
    Some (rp, t)
  else
    (* a conversion the program's format does not use *)
    None.

(** The format loop: white space in the format skips white space of the
    input, [%c] is a conversion, any other character matches itself. *)
Fixpoint strptime_loop (fmt : string) (rp : string) (t : tm)
  : option (string * tm) :=
  match fmt with
  | EmptyString => Some (rp, t)
  | String f fmt' =>
      if isspace f then strptime_loop fmt' (skip_spaces rp) t
      else if negb (f =? "%")%char then
        match rp with
        | String r rp' =>
            if (f =? r)%char then strptime_loop fmt' rp' t else None
        | EmptyString => None
        end
      else
        match fmt' with
        | String c fmt'' =>
            match conversion c rp t with
            | Some (rp', t') => strptime_loop fmt'' rp' t'
            | None => None
            end
        | EmptyString => None
        end
  end.

(** The caller's [struct tm] is not initialised; the fields a format
    leaves alone are zero here. *)
Definition tm_unset : tm := mk_tm 0 0 0 0 0 0 0.

Definition strptime (buf fmt : string) : option tm :=
  match strptime_loop fmt buf tm_unset with
  | Some (_, t) => Some t
  | None => None
  end.

(** Leap years among the years [1..y] of the proleptic Gregorian
    calendar ([/] rounds down). *)
Definition leaps_through (y : Z) : Z := y / 4 - y / 100 + y / 400.

Definition is_leap (y : Z) : bool :=
  (y mod 4 =? 0) && (negb (y mod 100 =? 0) || (y mod 400 =? 0)).

Definition days_before_year (y : Z) : Z :=
  365 * (y - 1970) + (leaps_through (y - 1) - leaps_through 1969).

Definition days_before_month (leap : bool) (mon : Z) : Z :=
  nth (Z.to_nat mon) [0; 31; 59; 90; 120; 151; 181; 212; 243; 273; 304; 334] 0
  + (if leap && (2 <=? mon) then 1 else 0).

(** Seconds since the epoch of the broken-down time read as UTC; the
    month is brought into [0..11], the other fields count linearly. *)
Definition timegm (t : tm) : Z :=
  let year := tm_year t + 1900 + tm_mon t / 12 in
  let mon := tm_mon t mod 12 in
  let days := days_before_year year
              + days_before_month (is_leap year) mon
              + (tm_mday t - 1) in
  ((days * 24 + tm_hour t) * 60 + tm_min t) * 60 + tm_sec t.

(** With [tm_isdst = 0] the fields are local standard time, which is
    [timezone] seconds behind UTC. *)
Definition mktime (timezone : Z) (t : tm) : Z := timegm t + timezone.

End Glibc.

#[export] Instance glibc : Libc := {
  strptime := Glibc.strptime;
  mktime := Glibc.mktime
}.

(** ** The timestamp normaliser *)

(** [logtime[i]]: the character, the terminator at [i = size], and no
    defined behaviour beyond. *)
Definition at_index (logtime : string) (i : nat) : outcome ascii :=
  match String.get i logtime with
  | Some c => Ok c
  | None =>
      if (i =? String.length logtime)%nat then Ok NUL
      else Undefined ReadPastEnd
  end.

(** [stream << t; stream >> retval] for a [time_t]. *)
Definition decimal (t : Z) : string := NilZero.string_of_int (Z.to_int t).

(** The format string handed to [strptime]. *)
Definition logtime_format : string := "%d/%b/%Y:%H:%M:%S %Z".

Definition logtimeToUnix `{Libc} (timezone : Z) (logtime : string)
  : outcome string :=
  match strptime (c_str logtime) logtime_format with
  | None => Ok "-"
  | Some tm =>
      let tm := set_tm_isdst tm 0 in
      c22 <- at_index logtime 22 ;;
      c23 <- at_index logtime 23 ;;
      let hours := 10 * (code c22 - code "0") + code c23 - code "0" in
      c24 <- at_index logtime 24 ;;
      c25 <- at_index logtime 25 ;;
      let mins := 10 * (code c24 - code "0") + code c25 - code "0" in
      let off_secs := 60 * 60 * hours + 60 * mins in
      c21 <- at_index logtime 21 ;;
      let off_secs := if (c21 =? "-")%char then off_secs * -1 else off_secs in
      let t := mktime timezone tm in
      if t =? -1 then Ok "-"
      else
        let t := t - timezone in
        let t := t + off_secs in
        Ok (decimal t)
  end.

(** The shape the comment above [logtimeToUnix] asks of [logtime]:
    day/month/year:hour:minute:second zone, with 2, 3 (letters), 4, 2, 2
    and 2 characters, and a zone made of a sign and 4 digits. *)
Inductive char_class : Set :=
| Digit | Letter | Sign | Lit (c : ascii).

Definition in_class (k : char_class) (c : ascii) : bool :=
  match k with
  | Digit => isdigit c
  | Letter => isalpha c
  | Sign => (c =? "+")%char || (c =? "-")%char
  | Lit l => (c =? l)%char
  end.

Fixpoint has_shape (shape : list char_class) (s : string) : bool :=
  match shape, s with
  | [], EmptyString => true
  | k :: shape', String c s' => in_class k c && has_shape shape' s'
  | _, _ => false
  end.

Definition logtime_shape : list char_class :=
  [ Digit; Digit; Lit "/"; Letter; Letter; Letter; Lit "/";
    Digit; Digit; Digit; Digit; Lit ":"; Digit; Digit; Lit ":";
    Digit; Digit; Lit ":"; Digit; Digit; Lit " ";
    Sign; Digit; Digit; Digit; Digit ].

Definition well_formed_logtime (logtime : string) : bool :=
  has_shape logtime_shape logtime.

(** ** The scanner *)

Definition dquote : ascii := "034"%char.
Definition backslash : ascii := "092"%char.
Definition tab : ascii := "009"%char.
Definition endl : string := String "010"%char EmptyString.

(** The local variables of [scanCLF] that live across loop iterations. *)
Record scan : Type := mk_scan {
  state : State;
  tokens : list string;
  token : string
}.

(** [token += *it] *)
Definition accumulate (c : ascii) (sc : scan) : scan :=
  mk_scan (state sc) (tokens sc) (push_char (token sc) c).

(** [tokens.push_back(token); token.clear();] *)
Definition push_clear (sc : scan) : scan :=
  mk_scan (state sc) (tokens sc ++ [token sc]) EmptyString.

(** [tokens.push_back(token);] *)
Definition push_back (sc : scan) : scan :=
  mk_scan (state sc) (tokens sc ++ [token sc]) (token sc).

(** [validate(state, token); tokens.push_back(token); token.clear();] *)
Definition commit (skip : bool) (sc : scan) : outcome scan :=
  st <- validate skip (state sc) (token sc) ;;
  Ok (mk_scan st (tokens sc ++ [token sc]) EmptyString).

(** [*(it-1)], with the iterator [it] as its distance from [line.begin()]. *)
Definition lookback (line : string) (it : nat) : outcome ascii :=
  match it with
  | O => Undefined ReadBeforeBegin
  | S p =>
      match String.get p line with
      | Some c => Ok c
      | None => Undefined ReadPastLine
      end
  end.

(** The test that [*it] is not a double quote or [*(it-1)] is a backslash;
    the lookback is evaluated only when [*it] is a double quote. *)
Definition not_closing_quote (line : string) (it : nat) (c : ascii)
  : outcome bool :=
  if negb (c =? dquote)%char then Ok true
  else p <- lookback line it ;; Ok (p =? backslash)%char.

Section Scanner.

Context `{Libc}.
Variable skip : bool.       (* the global [skip_validation] *)
Variable timezone : Z.      (* the global [timezone] of the C library *)

(** The body of the [for] loop: the [switch] on [state] at the
    character [c = *it]. *)
Definition scan_char (line : string) (it : nat) (c : ascii) (sc : scan)
  : outcome scan :=
  match state sc with
  | IP | CLIENT | USER | CODE | CONTENT =>
      sc1 <- (if negb (c =? " ")%char && negb (c =? ",")%char then
                Ok (accumulate c sc)
              else if (c =? ",")%char && State_eqb (state sc) IP then
                Ok (push_clear sc)
              else if negb (empty (token sc)) then
                commit skip sc
              else Ok sc) ;;
      if (S it =? String.length line)%nat && negb (empty (token sc1))
      then Ok (push_back sc1)
      else Ok sc1
  | TIME =>
      if negb (c =? "[")%char && negb (c =? "]")%char then
        Ok (accumulate c sc)
      else if (c =? "]")%char then
        converted <- logtimeToUnix timezone (token sc) ;;
        st <- validate skip (state sc) converted ;;
        Ok (mk_scan st (tokens sc ++ [converted]) EmptyString)
      else Ok sc
  | URL_METHOD | URL_PATH | URL_PROTOCOL =>
      content <- not_closing_quote line it c ;;
      if content then
        if negb (c =? " ")%char then Ok (accumulate c sc)
        else if negb (empty (token sc)) then commit skip sc
        else Ok sc
      else if negb (empty (token sc)) then commit skip sc
      else Ok sc
  | REFERER | AGENT =>
      content <- not_closing_quote line it c ;;
      if content && (negb (c =? " ")%char || negb (empty (token sc))) then
        Ok (accumulate c sc)
      else if negb (empty (token sc)) then commit skip sc
      else Ok sc
  end.

(** The [for] loop from the iterator [it], [rest] being the characters
    from [it] to [line.end()]. *)
Fixpoint scan_loop (line : string) (it : nat) (rest : string) (sc : scan)
  : outcome scan :=
  match rest with
  | EmptyString => Ok sc
  | String c rest' =>
      sc' <- scan_char line it c sc ;;
      scan_loop line (S it) rest' sc'
  end.

Definition scan_start : scan := mk_scan IP [] EmptyString.

(** [scanCLF] up to its output loop: the committed tokens. *)
Definition scan_tokens (line : string) : outcome (list string) :=
  sc <- scan_loop line 0 line scan_start ;;
  Ok (tokens sc).

End Scanner.

(** The output loop of [scanCLF]: the tokens with a tab between them, then
    [endl]. *)
Fixpoint print_tokens (tokens : list string) : string :=
  match tokens with
  | [] => endl
  | t :: rest =>
      match rest with
      | [] => (t ++ endl)%string
      | _ :: _ => (t ++ String tab (print_tokens rest))%string
      end
  end.

(** ** The process: globals and the two output streams *)

Record World : Type := mk_World {
  skip_validation : bool;
  timezone : Z;
  cout : string;
  cerr : string
}.

Definition write_cout (w : World) (s : string) : World :=
  mk_World (skip_validation w) (timezone w) (cout w ++ s)%string (cerr w).

Definition write_cerr (w : World) (s : string) : World :=
  mk_World (skip_validation w) (timezone w) (cout w) (cerr w ++ s)%string.

Definition scanCLF `{Libc} (line : string) (w : World) : outcome World :=
  toks <- scan_tokens (skip_validation w) (timezone w) line ;;
  Ok (write_cout w (print_tokens toks)).

(** The message of the [catch] clause of [main]. *)
Definition error_message (e line : string) : string :=
  ("Error " ++ String dquote e ++ String dquote " on line: " ++ line ++ endl)%string.

(** One turn of the [while] loop of [main]; [None] when the turn has no
    defined behaviour. *)
Definition main_turn `{Libc} (line : string) (w : World) : option World :=
  match scanCLF line w with
  | Ok w' => Some w'
  | Throw e => Some (write_cerr w (error_message e line))
  | Undefined _ => None
  end.

Fixpoint main_loop `{Libc} (lines : list string) (w : World) : option World :=
  match lines with
  | [] => Some w
  | line :: rest =>
      match main_turn line w with
      | Some w' => main_loop rest w'
      | None => None
      end
  end.

(** [main] on the lines of standard input. *)
Definition main `{Libc} (stdin : list string) (w : World) : option World :=
  main_loop stdin (mk_World false (timezone w) (cout w) (cerr w)).

(** ** Sample lines *)

Definition quoted (s : string) : string :=
  (String dquote s ++ String dquote EmptyString)%string.

(** A Common Log Format line from its seven fields. *)
Definition clf_line (address identity user logtime request code content : string)
  : string :=
  (address ++ " " ++ identity ++ " " ++ user ++ " [" ++ logtime ++ "] "
   ++ quoted request ++ " " ++ code ++ " " ++ content)%string.

Definition sample_line : string :=
  clf_line "1.2.3.4" "-" "-" "04/Apr/2012:10:37:29 -0500" "GET /x HTTP/1.0"
           "200" "512".

(** The states whose branch of the scanner looks one character back. *)
Definition quote_states : list State :=
  [URL_METHOD; URL_PATH; URL_PROTOCOL; REFERER; AGENT].

(** A timestamp that is no timestamp. *)
Definition line_bad_time : string :=
  clf_line "1.2.3.4" "-" "-" "yesterday" "GET /x HTTP/1.0" "200" "512".

(** A content length that is not numeric, an empty address between two
    commas, a line that ends after the client identity, a status code that
    is not numeric. *)
Definition line_bad_content : string :=
  clf_line "1.2.3.4" "-" "-" "04/Apr/2012:10:37:29 -0500" "GET /x HTTP/1.0"
           "200" "abc".

Definition line_empty_address : string :=
  clf_line "1.2.3.4,,5.6.7.8" "-" "-" "04/Apr/2012:10:37:29 -0500"
           "GET /x HTTP/1.0" "200" "512".

Definition line_identity_last : string := "1.2.3.4 ident".


(** A run of the driver over two lines. *)
Definition world_start : World := mk_World false 0 EmptyString EmptyString.

Definition lines_between : list string := ["9.9.9.9 nobody "; line_bad_time].

Definition world_after : World :=
  mk_World false 0
    (print_tokens ["1.2.3.4"; "-"; "-"; "-"; "GET"; "/x"; "HTTP/1.0"; "200"; "512"])
    (error_message "Client identity unsupported." "9.9.9.9 nobody ").

(** ** The specification's wording of the address validator *)

Definition digit_or_dot (c : ascii) : bool := isdigit c || (c =? ".")%char.

Fixpoint all_chars (p : ascii -> bool) (s : string) : bool :=
  match s with
  | EmptyString => true
  | String c s' => p c && all_chars p s'
  end.

Fixpoint count_dots (s : string) : Z :=
  match s with
  | EmptyString => 0
  | String c s' => (if (c =? ".")%char then 1 else 0) + count_dots s'
  end.

(** [is_address] as the specification words it: exactly [-], or only
    digits and dots, exactly three dots, at most 15 characters.  It is
    compared with [is_IP] below. *)
Definition is_address_spec (token : string) : bool :=
  (token =? "-")%string
  || (all_chars digit_or_dot token
      && (count_dots token =? 3)
      && (Z.of_nat (String.length token) <=? 15)).

(** A token of [n] characters [c]. *)
Fixpoint replicate (n : nat) (c : ascii) : string :=
  match n with
  | O => EmptyString
  | S n' => String c (replicate n' c)
  end.

(** ** Character classes and token lists used in the statements below *)

Definition not_comma (c : ascii) : bool := negb (c =? ",")%char.

Definition not_dquote (c : ascii) : bool := negb (c =? dquote)%char.

(** Neither of the two delimiters of the simple fields. *)
Definition not_delimiter (c : ascii) : bool :=
  negb (c =? " ")%char && negb (c =? ",")%char.

Definition nonempty (t : string) : Prop := empty t = false.

(** The literals thrown by [validate], the one of the TIME state left
    out. *)
Definition strict_reasons : list string :=
  [ "IP is invalid."; "Client identity unsupported."; "USER is invalid.";
    "PATH does not begin with forward slash."; "CODE is not numeric.";
    "CONTENT is not numeric." ].

(** A line whose bracketed string [strptime] accepts and that is too
    short for the zone digits. *)
Definition line_short_time : string :=
  clf_line "1.2.3.4" "-" "-" "04/Apr/2012:10:37:29" "GET /x HTTP/1.0"
           "200" "512".

(** The two characters the output loop writes between and after the
    tokens, and tokens that hold neither of them. *)
Definition is_separator (c : ascii) : bool :=
  (c =? tab)%char || (c =? "010")%char.

Definition plain (t : string) : Prop :=
  all_chars (fun c => negb (is_separator c)) t = true.

(** * Properties *)

(** ** Validators *)

Lemma validate_defined (skip : bool) (st : State) (tok : string) (u : fault) :
  validate skip st tok <> Undefined u.
Proof.
  destruct st; cbn; unfold IF_VALID;
    try match goal with |- context [if ?b then _ else _] => destruct b end;
    discriminate.
Qed.

Lemma validate_advances (skip : bool) (st st' : State) (tok : string) :
  validate skip st tok = Ok st' ->
  (st = AGENT /\ st' = AGENT) \/ State_index st' = State_index st + 1.
Proof.
  destruct st; cbn; unfold IF_VALID;
    try match goal with |- context [if ?b then _ else _] => destruct b end;
    intros E; inversion E; subst; cbn; auto.
Qed.


(** A digit or a minus sign in front does not change [is_numeric]. *)
Lemma is_numeric_cons (c : ascii) (s : string) :
  isdigit c || (c =? "-")%char = true ->
  is_numeric (String c s) = is_numeric s.
Proof.
  intros Hc. unfold is_numeric. cbn [c_str].
  destruct (c =? NUL)%char eqn:E.
  - apply Ascii.eqb_eq in E. subst c. discriminate Hc.
  - cbn [is_numeric_loop].
    destruct (isdigit c); [reflexivity |].
    cbn in Hc. rewrite Hc. reflexivity.
Qed.

Lemma is_numeric_uint (d : Decimal.uint) :
  is_numeric (NilEmpty.string_of_uint d) = true.
Proof.
  induction d; cbn [NilEmpty.string_of_uint];
    [reflexivity | rewrite is_numeric_cons; [assumption | reflexivity] ..].
Qed.

(** Whatever [stream << t] prints passes [is_numeric]. *)
Lemma is_numeric_decimal (t : Z) : is_numeric (decimal t) = true.
Proof.
  unfold decimal, NilZero.string_of_int, NilZero.string_of_uint.
  destruct (Z.to_int t) as [d | d].
  - destruct d; try reflexivity; apply is_numeric_uint.
  - rewrite is_numeric_cons by reflexivity.
    destruct d; try reflexivity; apply is_numeric_uint.
Qed.

(** ** The timestamp normaliser *)

Lemma at_index_not_thrown (s : string) (i : nat) (e : string) :
  at_index s i <> Throw e.
Proof.
  unfold at_index. destruct (String.get i s); [discriminate |].
  destruct (i =? String.length s)%nat; discriminate.
Qed.

Lemma logtimeToUnix_not_thrown `{Libc} (tz : Z) (logtime e : string) :
  logtimeToUnix tz logtime <> Throw e.
Proof.
  unfold logtimeToUnix.
  destruct (strptime (c_str logtime) logtime_format); [| discriminate].
  repeat match goal with
         | |- bind (at_index ?s ?i) _ <> _ =>
             let E := fresh "E" in
             destruct (at_index s i) eqn:E; cbn [bind];
             [ | exfalso; exact (at_index_not_thrown _ _ _ E) | discriminate ]
         end.
  destruct (_ =? -1); discriminate.
Qed.

Lemma logtimeToUnix_fault `{Libc} (tz : Z) (logtime : string) (u : fault) :
  logtimeToUnix tz logtime = Undefined u -> u = ReadPastEnd.
Proof.
  unfold logtimeToUnix.
  destruct (strptime (c_str logtime) logtime_format); [| discriminate].
  repeat match goal with
         | |- bind (at_index ?s ?i) _ = _ -> _ =>
             let E := fresh "E" in
             destruct (at_index s i) eqn:E; cbn [bind];
             [ | discriminate
               | unfold at_index in E; destruct (String.get i s);
                 [ discriminate
                 | destruct (i =? String.length s)%nat;
                   [ discriminate | intros X; congruence ] ] ]
         end.
  destruct (_ =? -1); discriminate.
Qed.

(** Every token [logtimeToUnix] returns passes [is_numeric]. *)
Lemma logtimeToUnix_numeric `{Libc} (tz : Z) (logtime converted : string) :
  logtimeToUnix tz logtime = Ok converted -> is_numeric converted = true.
Proof.
  unfold logtimeToUnix.
  destruct (strptime (c_str logtime) logtime_format);
    [| intros E; inversion E; reflexivity].
  repeat match goal with
         | |- bind (at_index ?s ?i) _ = _ -> _ =>
             destruct (at_index s i); cbn [bind]; [ | discriminate | discriminate ]
         end.
  destruct (_ =? -1); intros E; inversion E;
    [reflexivity | apply is_numeric_decimal].
Qed.

Ltac strptime_step :=
  match goal with
  | |- context [Glibc.get_number ?a ?b ?n ?rp] =>
      destruct (Glibc.get_number a b n rp) as [[? ?] |]
  | |- context [Glibc.match_month ?a ?b ?rp ?z ?n] =>
      destruct (Glibc.match_month a b rp z n) as [[? ?] |]
  | |- context [match ?x with EmptyString => _ | String _ _ => _ end] =>
      is_var x; destruct x
  | |- context [if ?b then _ else _] => destruct b
  end.

(** The [struct tm] handed to [strptime] is not initialised.  The format
    of the program sets every field [mktime] reads, and [tm_isdst] is
    overwritten by the caller: what the structure held before the call
    does not matter. *)
Lemma strptime_loop_init (buf : string) (t1 t2 : tm) :
  match Glibc.strptime_loop logtime_format buf t1,
        Glibc.strptime_loop logtime_format buf t2 with
  | Some (r1, a), Some (r2, b) =>
      r1 = r2 /\ set_tm_isdst a 0 = set_tm_isdst b 0
  | None, None => True
  | _, _ => False
  end.
Proof.
  unfold logtime_format.
  cbn -[Glibc.get_number Glibc.match_month Glibc.skip_spaces].
  repeat (strptime_step;
          cbn -[Glibc.get_number Glibc.match_month Glibc.skip_spaces]);
    auto.
Qed.

Lemma has_shape_length (shape : list char_class) :
  forall s : string,
    has_shape shape s = true -> String.length s = List.length shape.
Proof.
  induction shape as [| k shape IH]; intros [| c s]; cbn;
    try discriminate; [reflexivity |].
  intros E. apply andb_prop in E. destruct E as [_ E].
  rewrite (IH s E). reflexivity.
Qed.

Lemma get_none_past (s : string) :
  forall p : nat, String.get p s = None -> (String.length s <= p)%nat.
Proof.
  induction s as [| c s IH]; intros p; cbn; [lia |].
  destruct p as [| p]; [discriminate |].
  intros G. apply IH in G. lia.
Qed.

Lemma at_index_defined (s : string) (i : nat) :
  (i <= String.length s)%nat -> exists c, at_index s i = Ok c.
Proof.
  intros Hi. unfold at_index.
  destruct (String.get i s) as [c |] eqn:G; [exists c; reflexivity |].
  apply get_none_past in G.
  replace (i =? String.length s)%nat with true
    by (symmetry; apply Nat.eqb_eq; lia).
  exists NUL. reflexivity.
Qed.

(** A timestamp of the documented shape has 26 characters, so the reads
    of the zone digits stay inside it: the normaliser returns a token. *)
Lemma logtimeToUnix_well_formed `{Libc} (tz : Z) (logtime : string) :
  well_formed_logtime logtime = true ->
  exists converted, logtimeToUnix tz logtime = Ok converted.
Proof.
  intros W. apply has_shape_length in W. cbn [List.length logtime_shape] in W.
  unfold logtimeToUnix.
  destruct (strptime (c_str logtime) logtime_format); [| eauto].
  repeat match goal with
         | |- context [bind (at_index ?s ?i) _] =>
             let c := fresh "c" in
             let E := fresh "E" in
             destruct (at_index_defined s i) as [c E];
             [ rewrite W; repeat constructor | rewrite E; cbn [bind] ]
         end.
  destruct (_ =? -1); eauto.
Qed.

(** With the GNU library the host offset cancels, and the result is the
    clock fields read as UTC plus the signed zone offset. *)
Lemma logtimeToUnix_glibc (tz : Z) (logtime : string) (t : tm)
  (c21 c22 c23 c24 c25 : ascii) :
  Glibc.strptime (c_str logtime) logtime_format = Some t ->
  at_index logtime 21 = Ok c21 ->
  at_index logtime 22 = Ok c22 ->
  at_index logtime 23 = Ok c23 ->
  at_index logtime 24 = Ok c24 ->
  at_index logtime 25 = Ok c25 ->
  let hours := 10 * (code c22 - code "0") + code c23 - code "0" in
  let mins := 10 * (code c24 - code "0") + code c25 - code "0" in
  let off_secs := 60 * 60 * hours + 60 * mins in
  let signed := if (c21 =? "-")%char then - off_secs else off_secs in
  logtimeToUnix tz logtime
  = if Glibc.timegm (set_tm_isdst t 0) + tz =? -1 then Ok "-"
    else Ok (decimal (Glibc.timegm (set_tm_isdst t 0) + signed)).
Proof.
  intros Hp H21 H22 H23 H24 H25. cbv zeta.
  unfold logtimeToUnix. cbn [strptime mktime glibc].
  rewrite Hp, H21, H22, H23, H24, H25. cbn [bind].
  unfold Glibc.mktime.
  destruct (_ =? -1); [reflexivity |].
  f_equal. f_equal. destruct (c21 =? "-")%char; lia.
Qed.

(** C1 (as the code behaves): on a host whose offset is within a day, the
    timestamps [04/Apr/2012:10:37:29 -0500] and [04/Apr/2012:15:37:29 +0000]
    name the same instant, yet [logtimeToUnix] returns two different
    strings for them: the zone offset is added with its sign where the
    conversion to UTC has to subtract it, so the first result is
    05:37:29 UTC, ten hours before the second. *)
Theorem C1_offset_added_with_its_sign (tz : Z) :
  -86400 <= tz <= 86400 ->
  logtimeToUnix tz "04/Apr/2012:10:37:29 -0500" = Ok "1333517849" /\
  logtimeToUnix tz "04/Apr/2012:15:37:29 +0000" = Ok "1333553849" /\
  logtimeToUnix tz "04/Apr/2012:10:37:29 -0500"
  <> logtimeToUnix tz "04/Apr/2012:15:37:29 +0000".
Proof.
  intros Htz.
  assert (A : logtimeToUnix tz "04/Apr/2012:10:37:29 -0500" = Ok "1333517849").
  { rewrite (logtimeToUnix_glibc tz _ (mk_tm 29 37 10 4 3 112 0)
               "-" "0" "5" "0" "0") by (vm_compute; reflexivity).
    replace (Glibc.timegm (set_tm_isdst (mk_tm 29 37 10 4 3 112 0) 0))
      with 1333535849 by (vm_compute; reflexivity).
    destruct (1333535849 + tz =? -1) eqn:E; [lia |].
    vm_compute. reflexivity. }
  assert (B : logtimeToUnix tz "04/Apr/2012:15:37:29 +0000" = Ok "1333553849").
  { rewrite (logtimeToUnix_glibc tz _ (mk_tm 29 37 15 4 3 112 0)
               "+" "0" "0" "0" "0") by (vm_compute; reflexivity).
    replace (Glibc.timegm (set_tm_isdst (mk_tm 29 37 15 4 3 112 0) 0))
      with 1333553849 by (vm_compute; reflexivity).
    destruct (1333553849 + tz =? -1) eqn:E; [lia |].
    vm_compute. reflexivity. }
  rewrite A, B. repeat split. discriminate.
Qed.

Lemma C1_offset_added_with_its_sign_witness :
  -86400 <= 21600 <= 86400 /\
  logtimeToUnix 21600 "04/Apr/2012:10:37:29 -0500"
  <> logtimeToUnix 21600 "04/Apr/2012:15:37:29 +0000".
Proof.
  split; [lia |].
  apply (C1_offset_added_with_its_sign 21600). lia.
Defined.

(** ** Failed normalisation *)

(** C2, counterexample: [yesterday] has not the shape of a timestamp and
    [strptime] rejects it, yet in strict mode the line is not rejected:
    the scan returns a record whose timestamp entry is [-]. *)
Lemma C2_counterexample :
  well_formed_logtime "yesterday" = false /\
  strptime (c_str "yesterday") logtime_format = None /\
  scan_tokens false 0 line_bad_time
  = Ok ["1.2.3.4"; "-"; "-"; "-"; "GET"; "/x"; "HTTP/1.0"; "200"; "512"] /\
  scan_tokens false 0 line_bad_time <> Throw "TIME is not numeric.".
Proof.
  assert (E : scan_tokens false 0 line_bad_time
              = Ok ["1.2.3.4"; "-"; "-"; "-"; "GET"; "/x"; "HTTP/1.0"; "200"; "512"])
    by (vm_compute; reflexivity).
  rewrite E. repeat split; try (vm_compute; reflexivity). discriminate.
Qed.

(** C2 (amended): when [strptime] rejects the bracketed string,
    [logtimeToUnix] returns the token [-]; [is_numeric] accepts that token,
    so in strict mode the Timestamp state does not reject the line at the
    closing bracket: it commits [-] as the timestamp entry and advances to
    the Method state. *)
Theorem C2_failed_time_is_committed `{Libc} (tz : Z) (logtime line : string)
  (it : nat) (toks : list string) :
  strptime (c_str logtime) logtime_format = None ->
  logtimeToUnix tz logtime = Ok "-" /\
  is_numeric "-" = true /\
  scan_char false tz line it "]" (mk_scan TIME toks logtime)
  = Ok (mk_scan URL_METHOD (toks ++ ["-"]) EmptyString).
Proof.
  intros Hnull.
  assert (E : logtimeToUnix tz logtime = Ok "-")
    by (unfold logtimeToUnix; rewrite Hnull; reflexivity).
  split; [exact E |]. split; [reflexivity |].
  unfold scan_char. cbn [state token tokens].
  change (negb ("]" =? "[")%char && negb ("]" =? "]")%char) with false.
  change ("]" =? "]")%char with true. cbv iota.
  rewrite E. reflexivity.
Qed.

Lemma C2_failed_time_is_committed_witness :
  logtimeToUnix 0 "yesterday" = Ok "-" /\
  is_numeric "-" = true /\
  scan_char false 0 line_bad_time 20 "]"
    (mk_scan TIME ["1.2.3.4"; "-"; "-"] "yesterday")
  = Ok (mk_scan URL_METHOD (["1.2.3.4"; "-"; "-"] ++ ["-"]) EmptyString).
Proof.
  apply (C2_failed_time_is_committed 0 "yesterday" line_bad_time 20
           ["1.2.3.4"; "-"; "-"]).
  vm_compute. reflexivity.
Defined.

(** ** Addresses *)

Lemma to_short_small (z : Z) : -32768 <= z < 32768 -> to_short z = z.
Proof. intros Hz. unfold to_short. rewrite Z.mod_small; lia. Qed.

Lemma is_IP_loop_small (head : string) :
  forall dots len : Z,
    0 <= dots -> 0 <= len ->
    dots + Z.of_nat (String.length head) < 32768 ->
    len + Z.of_nat (String.length head) < 32768 ->
    is_IP_loop head dots len
    = all_chars digit_or_dot head
      && (dots + count_dots head =? 3)
      && (len + Z.of_nat (String.length head) <=? 15).
Proof.
  induction head as [| c head IH]; intros dots len Hd Hl Hdn Hln.
  - cbn. rewrite !Z.add_0_r. reflexivity.
  - cbn [is_IP_loop all_chars count_dots String.length] in *.
    rewrite Nat2Z.inj_succ in Hdn, Hln |- *. fold (digit_or_dot c).
    destruct (digit_or_dot c); cbn [negb andb]; [| reflexivity].
    rewrite (to_short_small (len + 1)) by lia.
    destruct (c =? ".")%char.
    + rewrite (to_short_small (dots + 1)) by lia.
      rewrite IH by lia.
      replace (dots + (1 + count_dots head)) with (dots + 1 + count_dots head)
        by lia.
      replace (len + Z.succ (Z.of_nat (String.length head)))
        with (len + 1 + Z.of_nat (String.length head)) by lia.
      reflexivity.
    + rewrite IH by lia.
      replace (len + Z.succ (Z.of_nat (String.length head)))
        with (len + 1 + Z.of_nat (String.length head)) by lia.
      reflexivity.
Qed.

(** For a token without a NUL byte, short enough for the [short] counters
    not to wrap, and that begins with [-] only if it is exactly [-],
    [is_IP] is the specification's predicate. *)
Lemma is_IP_agrees (token : string) :
  c_str token = token ->
  Z.of_nat (String.length token) < 32768 ->
  (deref token = "-"%char -> token = "-") ->
  is_IP token = is_address_spec token.
Proof.
  intros Hc Hlen Hdash. unfold is_IP, is_address_spec. rewrite Hc.
  destruct (deref token =? "-")%char eqn:E.
  - apply Ascii.eqb_eq in E. rewrite (Hdash E). reflexivity.
  - assert (N : (token =? "-")%string = false).
    { apply String.eqb_neq. intros ->. discriminate E. }
    rewrite N, is_IP_loop_small by lia. reflexivity.
Qed.

(** C3 (as the code behaves): [is_IP] returns true for every token that
    begins with [-], whatever follows: only the first character is
    compared, so [-x] and [-1.2] are accepted although they are neither
    exactly [-] nor made of digits and three dots. *)
Theorem C3_is_IP_leading_dash (rest : string) :
  is_IP (String "-" rest) = true /\
  is_IP "-x" = true /\ is_address_spec "-x" = false /\
  is_IP "-1.2" = true /\ is_address_spec "-1.2" = false.
Proof. repeat split. Qed.

(** The counters of [is_IP] are [short]: a token of 32768 characters,
    three dots among them, ends the loop with a negative length and is
    accepted. *)
Lemma is_IP_long_token :
  is_IP ("1.2.3." ++ replicate (Z.to_nat 32762) "4") = true /\
  is_address_spec ("1.2.3." ++ replicate (Z.to_nat 32762) "4") = false.
Proof. split; vm_compute; reflexivity. Qed.

(** ** Commits without validation *)

(** In a simple field, a character that is not a delimiter and is the last
    one of the line is appended to the token, and the token is pushed as
    it is: [validate] is not called and the state stays. *)
Lemma end_of_line_push_skips_validate `{Libc} (skip : bool) (tz : Z)
  (line : string) (it : nat) (c : ascii) (sc : scan) :
  In (state sc) [IP; CLIENT; USER; CODE; CONTENT] ->
  (c =? " ")%char = false -> (c =? ",")%char = false ->
  S it = String.length line ->
  scan_char skip tz line it c sc = Ok (push_back (accumulate c sc)).
Proof.
  intros Hst Hsp Hco Hlast.
  assert (Hne : empty (push_char (token sc) c) = false)
    by (unfold push_char; destruct (token sc); reflexivity).
  unfold scan_char.
  rewrite Hsp, Hco, Hlast, Nat.eqb_refl.
  cbn in Hst.
  destruct Hst as [E | [E | [E | [E | [E | []]]]]]; rewrite <- E;
    cbn [negb andb bind accumulate token]; rewrite Hne; reflexivity.
Qed.

(** C4 (as the code behaves): in strict mode the content-length token
    [abc] does not pass [is_numeric], and a line that ends right after it
    is not rejected: the end-of-line push appends [abc] to the record
    without calling [validate].  The same line followed by a space is
    rejected with [CONTENT is not numeric.]. *)
Theorem C4_end_of_line_commit_unvalidated :
  is_numeric "abc" = false /\
  scan_tokens false 0 line_bad_content
  = Ok ["1.2.3.4"; "-"; "-"; "1333517849"; "GET"; "/x"; "HTTP/1.0"; "200"; "abc"] /\
  scan_tokens false 0 (line_bad_content ++ " ")%string
  = Throw "CONTENT is not numeric.".
Proof. repeat split; vm_compute; reflexivity. Qed.

(** C5 (as the code behaves): in the Address state a comma pushes the
    current token even when it is empty, so a comma that follows another
    comma commits an empty entry to the record: [1.2.3.4,,5.6.7.8] gives
    three address entries, the second one empty. *)
Theorem C5_comma_commits_empty_token :
  (forall (L : Libc) (skip : bool) (tz : Z) (line : string) (it : nat)
          (toks : list string),
      scan_char skip tz line it "," (mk_scan IP toks EmptyString)
      = Ok (mk_scan IP (toks ++ [EmptyString]) EmptyString)) /\
  scan_tokens false 0 line_empty_address
  = Ok ["1.2.3.4"; ""; "5.6.7.8"; "-"; "-"; "1333517849"; "GET"; "/x";
        "HTTP/1.0"; "200"; "512"].
Proof.
  split.
  - intros L skip tz line it toks. unfold scan_char. cbn.
    rewrite andb_false_r. reflexivity.
  - vm_compute. reflexivity.
Qed.

(** C6 (as the code behaves): in strict mode [validate] rejects the
    client identity [ident], and the line [1.2.3.4 ident], which ends
    right after that token, is not rejected: one record with the entry
    [ident] is written to the output and nothing to the error stream.
    With a space after the token the line is rejected. *)
Theorem C6_identity_at_end_of_line :
  validate false CLIENT "ident" = Throw "Client identity unsupported." /\
  scan_tokens false 0 line_identity_last = Ok ["1.2.3.4"; "ident"] /\
  main_turn line_identity_last (mk_World false 0 EmptyString EmptyString)
  = Some (mk_World false 0
            ("1.2.3.4" ++ String tab "ident" ++ endl)%string EmptyString) /\
  scan_tokens false 0 (line_identity_last ++ " ")%string
  = Throw "Client identity unsupported.".
Proof. repeat split; vm_compute; reflexivity. Qed.

(** ** One character of the scan *)

Lemma commit_outcome (skip : bool) (sc : scan) :
  match commit skip sc with
  | Ok sc' => validate skip (state sc) (token sc) = Ok (state sc')
  | Throw e => validate skip (state sc) (token sc) = Throw e
  | Undefined _ => False
  end.
Proof.
  unfold commit.
  destruct (validate skip (state sc) (token sc)) eqn:E; cbn [bind state];
    try reflexivity.
  exact (validate_defined _ _ _ _ E).
Qed.

Lemma not_closing_quote_outcome (line : string) (it : nat) (c : ascii) :
  match not_closing_quote line it c with
  | Ok _ => True
  | Throw _ => False
  | Undefined u =>
      (u = ReadBeforeBegin /\ it = 0%nat)
      \/ (u = ReadPastLine /\ (String.length line < it)%nat)
  end.
Proof.
  unfold not_closing_quote, lookback.
  destruct (negb (c =? dquote)%char); [exact I |].
  destruct it as [| p]; cbn [bind]; [auto |].
  destruct (String.get p line) eqn:G; cbn [bind]; [exact I |].
  right. split; [reflexivity |]. apply get_none_past in G. lia.
Qed.

Ltac scan_case :=
  match goal with
  | |- context [bind (commit ?s ?x) _] =>
      generalize (commit_outcome s x); destruct (commit s x);
      cbn [bind]; intros ?
  | |- context [bind (not_closing_quote ?l ?i ?c) _] =>
      generalize (not_closing_quote_outcome l i c);
      destruct (not_closing_quote l i c); cbn [bind]; intros ?
  | |- context [match commit ?s ?x with _ => _ end] =>
      generalize (commit_outcome s x); destruct (commit s x); intros ?
  | |- context [if ?b then _ else _] => destruct b
  end.

(** What one loop iteration can do: keep the state or take the state
    [validate] returned for some token; throw what [validate] threw; or
    read outside a string: past the end of the timestamp, before the line
    only with [it] at its begin and the state one of the quoted fields,
    past the line only with [it] beyond its end. *)
Lemma scan_char_outcome `{Libc} (skip : bool) (tz : Z) (line : string)
  (it : nat) (c : ascii) (sc : scan) :
  match scan_char skip tz line it c sc with
  | Ok sc' =>
      state sc' = state sc
      \/ exists tok, validate skip (state sc) tok = Ok (state sc')
  | Throw e => exists tok, validate skip (state sc) tok = Throw e
  | Undefined u =>
      u = ReadPastEnd
      \/ (u = ReadBeforeBegin /\ it = 0%nat /\ In (state sc) quote_states)
      \/ (u = ReadPastLine /\ (String.length line < it)%nat)
  end.
Proof.
  destruct sc as [st toks tok]. unfold scan_char.
  cbn [state token tokens accumulate].
  destruct st.
  all: try (repeat (scan_case;
                    cbn [bind state token tokens accumulate push_back
                         push_clear] in * );
            try contradiction;
            try solve [ left; reflexivity
                      | right; eexists; eassumption
                      | eexists; eassumption ];
            match goal with
            | Hu : _ \/ _ |- _ =>
                destruct Hu as [[Hu Hi] | Hu];
                [ right; left; cbn; intuition auto | right; right; exact Hu ]
            end).
  (* TIME *)
  destruct (negb (c =? "[")%char && negb (c =? "]")%char);
    [left; reflexivity |].
  destruct (c =? "]")%char; [| left; reflexivity].
  destruct (logtimeToUnix tz tok) as [converted | e | u] eqn:E; cbn [bind].
  - destruct (validate skip TIME converted) as [st' | e | u] eqn:V;
      cbn [bind state].
    + right. exists converted. exact V.
    + exists converted. exact V.
    + destruct (validate_defined _ _ _ _ V).
  - destruct (logtimeToUnix_not_thrown _ _ _ E).
  - left. exact (logtimeToUnix_fault _ _ _ E).
Qed.

(** ** Permissive mode *)



(** ** State order *)

Lemma scan_loop_monotone `{Libc} (skip : bool) (tz : Z) (line : string)
  (rest : string) :
  forall (it : nat) (sc : scan),
    match scan_loop skip tz line it rest sc with
    | Ok sc' => State_index (state sc) <= State_index (state sc')
    | _ => True
    end.
Proof.
  induction rest as [| c rest IH]; intros it sc; cbn [scan_loop]; [lia |].
  pose proof (scan_char_outcome skip tz line it c sc) as O.
  destruct (scan_char skip tz line it c sc) as [sc1 | e | u]; cbn [bind];
    try exact I.
  specialize (IH (S it) sc1).
  destruct (scan_loop skip tz line (S it) rest sc1) as [sc' | e | u];
    try exact I.
  destruct O as [O | [tok V]].
  - rewrite <- O. exact IH.
  - apply validate_advances in V.
    destruct V as [[E1 E2] | V]; [rewrite E2, <- E1 in IH; exact IH | lia].
Qed.

(** C8: a call of [validate] throws, or leaves AGENT as it is, or moves
    the state to the enumerator that follows it; over a whole scan the
    state index never decreases; the loop of [scanCLF] ends without an
    error in whatever state the input runs out, and a line that stops
    after the content length gives its nine entries. *)
Theorem C8_state_moves_forward_by_one :
  (forall (skip : bool) (st : State) (tok : string),
      match validate skip st tok with
      | Ok st' =>
          (st = AGENT /\ st' = AGENT) \/ State_index st' = State_index st + 1
      | Throw _ => st <> AGENT
      | Undefined _ => False
      end) /\
  (forall (L : Libc) (skip : bool) (tz : Z) (line rest : string) (it : nat)
          (sc : scan),
      match scan_loop skip tz line it rest sc with
      | Ok sc' => State_index (state sc) <= State_index (state sc')
      | _ => True
      end) /\
  (forall (L : Libc) (skip : bool) (tz : Z) (line : string) (it : nat)
          (sc : scan),
      scan_loop skip tz line it EmptyString sc = Ok sc) /\
  scan_tokens false 0 sample_line
  = Ok ["1.2.3.4"; "-"; "-"; "1333517849"; "GET"; "/x"; "HTTP/1.0"; "200"; "512"].
Proof.
  split; [| split; [| split]].
  - intros skip st tok.
    destruct (validate skip st tok) as [st' | e | u] eqn:V.
    + exact (validate_advances _ _ _ _ V).
    + intros ->. discriminate V.
    + exact (validate_defined _ _ _ _ V).
  - intros L skip tz line rest it sc. apply scan_loop_monotone.
  - reflexivity.
  - vm_compute. reflexivity.
Qed.

(** ** Lines do not influence each other *)

Lemma append_empty_r_local (s : string) : (s ++ EmptyString)%string = s.
Proof. induction s as [| c s IH]; cbn; [reflexivity | rewrite IH; reflexivity]. Qed.

(** A turn of the driver reads the two globals and appends to one of the
    two streams; the text it appends depends on the line and on the
    globals only. *)
Lemma main_turn_appends `{Libc} (line : string) (w : World) :
  main_turn line w
  = match scan_tokens (skip_validation w) (timezone w) line with
    | Ok toks => Some (write_cout w (print_tokens toks))
    | Throw e => Some (write_cerr w (error_message e line))
    | Undefined _ => None
    end.
Proof.
  unfold main_turn, scanCLF.
  destruct (scan_tokens (skip_validation w) (timezone w) line); reflexivity.
Qed.

Lemma main_turn_globals `{Libc} (line : string) (w w' : World) :
  main_turn line w = Some w' ->
  skip_validation w' = skip_validation w /\ timezone w' = timezone w.
Proof.
  rewrite main_turn_appends.
  destruct (scan_tokens (skip_validation w) (timezone w) line);
    intros E; inversion E; subst; split; reflexivity.
Qed.

Lemma main_loop_globals `{Libc} (lines : list string) :
  forall w w' : World,
    main_loop lines w = Some w' ->
    skip_validation w' = skip_validation w /\ timezone w' = timezone w.
Proof.
  induction lines as [| line lines IH]; intros w w'; cbn [main_loop].
  - intros E. inversion E. split; reflexivity.
  - destruct (main_turn line w) as [w1 |] eqn:T; [| discriminate].
    intros E. apply IH in E. apply main_turn_globals in T.
    destruct E as [E1 E2], T as [T1 T2]. split; congruence.
Qed.

(** [main] runs in strict mode whatever the flag held before. *)
Lemma main_strict `{Libc} (stdin : list string) (w w' : World) :
  main stdin w = Some w' ->
  skip_validation w' = false /\ timezone w' = timezone w.
Proof. unfold main. intros E. apply main_loop_globals in E. exact E. Qed.



(** ** The lookback stays inside the line *)

Lemma scan_loop_fault `{Libc} (skip : bool) (tz : Z) (line : string)
  (rest : string) :
  forall (it : nat) (sc : scan) (u : fault),
    (it + String.length rest = String.length line)%nat ->
    (it = 0%nat -> state sc = IP) ->
    scan_loop skip tz line it rest sc = Undefined u -> u = ReadPastEnd.
Proof.
  induction rest as [| c rest IH]; intros it sc u Hlen Hinv;
    cbn [scan_loop]; [discriminate |].
  cbn [String.length] in Hlen.
  pose proof (scan_char_outcome skip tz line it c sc) as O.
  destruct (scan_char skip tz line it c sc) as [sc' | e | u']; cbn [bind].
  - apply IH; [lia | intros E; discriminate E].
  - discriminate.
  - intros E. inversion E; subst u'.
    destruct O as [O | [[_ [Hit Hq]] | [_ Hpast]]]; [exact O | | lia].
    rewrite (Hinv Hit) in Hq. cbn in Hq.
    repeat (destruct Hq as [Hq | Hq]; [discriminate Hq |]).
    destruct Hq.
Qed.

(** The scan reads the line inside its bounds; the one read that can
    leave a string is [logtime[21..25]] on a bracketed string that is too
    short. *)
Lemma scan_tokens_fault `{Libc} (skip : bool) (tz : Z) (line : string)
  (u : fault) :
  scan_tokens skip tz line = Undefined u -> u = ReadPastEnd.
Proof.
  unfold scan_tokens.
  destruct (scan_loop skip tz line 0 line scan_start) as [sc | e | u'] eqn:E;
    cbn [bind]; try discriminate.
  intros X. inversion X; subst u'.
  exact (scan_loop_fault skip tz line line 0%nat scan_start u
           eq_refl (fun _ => eq_refl) E).
Qed.

(** C10: the scan starts in the IP state; with the iterator past the
    first character the lookback does not read before the line; the loop
    iteration at the first character does not look back; so for every
    line, in either mode, [scanCLF] never evaluates [*(it-1)] with [it] at
    the begin of the line. *)
Theorem C10_lookback_never_before_begin :
  state scan_start = IP /\
  (forall (line : string) (it : nat),
      lookback line (S it) <> Undefined ReadBeforeBegin) /\
  (forall (L : Libc) (skip : bool) (tz : Z) (line : string) (c : ascii),
      scan_char skip tz line 0 c scan_start <> Undefined ReadBeforeBegin) /\
  (forall (L : Libc) (skip : bool) (tz : Z) (line : string),
      scan_tokens skip tz line <> Undefined ReadBeforeBegin) /\
  (forall (L : Libc) (line : string) (w : World),
      scanCLF line w <> Undefined ReadBeforeBegin).
Proof.
  assert (T : forall (L : Libc) (skip : bool) (tz : Z) (line : string),
             scan_tokens skip tz line <> Undefined ReadBeforeBegin).
  { intros L skip tz line E. apply scan_tokens_fault in E. discriminate E. }
  split; [reflexivity |]. split; [| split; [| split]].
  - intros line it. cbn [lookback].
    destruct (String.get it line); discriminate.
  - intros L skip tz line c.
    pose proof (scan_char_outcome skip tz line 0%nat c scan_start) as O.
    destruct (scan_char skip tz line 0 c scan_start) as [sc' | e | u];
      try discriminate.
    destruct O as [-> | [[_ [_ Hin]] | [-> _]]]; [discriminate | | discriminate].
    cbn in Hin. intuition discriminate.
  - exact T.
  - intros L line w. unfold scanCLF.
    specialize (T L (skip_validation w) (timezone w) line).
    destruct (scan_tokens (skip_validation w) (timezone w) line);
      cbn [bind]; congruence.
Qed.

(** * Further properties of the validators, the normaliser and the scanner *)

(** ** Validators *)

Lemma c_str_app_NUL (a b : string) :
  c_str (a ++ String NUL b) = c_str a.
Proof.
  induction a as [| c a IH]; cbn; [reflexivity |].
  destruct (c =? NUL)%char; [reflexivity | rewrite IH; reflexivity].
Qed.

(** X1: the three validators that walk [str.c_str()] see a token only up
    to its first NUL byte: whatever follows the NUL does not change their
    verdict. *)
Theorem validators_stop_at_NUL (a b : string) :
  is_IP (a ++ String NUL b) = is_IP a /\
  is_numeric (a ++ String NUL b) = is_numeric a /\
  is_user (a ++ String NUL b) = is_user a.
Proof.
  unfold is_IP, is_numeric, is_user. rewrite c_str_app_NUL.
  repeat split.
Qed.

Lemma deref_c_str (s : string) :
  (deref (c_str s) =? NUL)%char = empty (c_str s).
Proof.
  destruct s as [| c s]; cbn; [reflexivity |].
  destruct (c =? NUL)%char eqn:E; cbn; [reflexivity | exact E].
Qed.

(** X2: [is_user] accepts a token that begins with [-] exactly when
    nothing follows the dash (up to the terminator), and it rejects the
    empty token. *)
Theorem is_user_dash_alone (rest : string) :
  is_user (String "-" rest) = empty (c_str rest) /\
  is_user EmptyString = false.
Proof.
  split; [| reflexivity].
  unfold is_user.
  change (c_str (String "-" rest)) with (String "-"%char (c_str rest)).
  cbn [deref advance].
  change (isalpha "-") with false. change ("-" =? "_")%char with false.
  change ("-" =? "-")%char with true. cbn [orb andb].
  rewrite deref_c_str.
  destruct (c_str rest); reflexivity.
Qed.

(** X3: [is_numeric] asks for no digit: the empty token and every run of
    [-] characters pass. *)
Theorem is_numeric_dashes (n : nat) :
  is_numeric (replicate n "-") = true.
Proof.
  induction n as [| n IH]; [reflexivity |].
  cbn [replicate]. rewrite is_numeric_cons by reflexivity. exact IH.
Qed.

(** What [validate] throws: only in strict mode, and the literal of the
    state it was called in. *)
Lemma validate_throw_inv (skip : bool) (st : State) (tok e : string) :
  validate skip st tok = Throw e ->
  skip = false /\
  ((st = IP /\ e = "IP is invalid.")
   \/ (st = CLIENT /\ e = "Client identity unsupported.")
   \/ (st = USER /\ e = "USER is invalid.")
   \/ (st = TIME /\ e = "TIME is not numeric.")
   \/ (st = URL_PATH /\ e = "PATH does not begin with forward slash.")
   \/ (st = CODE /\ e = "CODE is not numeric.")
   \/ (st = CONTENT /\ e = "CONTENT is not numeric.")).
Proof.
  destruct st; cbn; unfold IF_VALID; try discriminate;
    destruct skip; cbn [orb]; try discriminate;
    match goal with |- context [if ?b then _ else _] => destruct b end;
    try discriminate;
    (intros E; inversion E; split; [reflexivity | tauto]).
Qed.

(** X4: the literal [validate] throws tells the state it was called in:
    two calls that throw the same literal were made in the same state,
    and both in strict mode. *)
Theorem validate_reason_names_state (skip skip' : bool) (st st' : State)
  (tok tok' e : string) :
  validate skip st tok = Throw e ->
  validate skip' st' tok' = Throw e ->
  st = st' /\ skip = false /\ skip' = false.
Proof.
  intros V V'.
  apply validate_throw_inv in V. apply validate_throw_inv in V'.
  destruct V as [-> V], V' as [-> V'].
  split; [| split; reflexivity].
  repeat (destruct V as [[-> ->] | V] || destruct V as [-> ->]);
    repeat (destruct V' as [[-> E] | V'] || destruct V' as [-> E]);
    try reflexivity; discriminate E.
Qed.

Lemma validate_reason_names_state_witness :
  CLIENT = CLIENT /\ false = false /\ false = false.
Proof.
  apply (validate_reason_names_state false false CLIENT CLIENT
           "ident" "rfc1413" "Client identity unsupported.");
    reflexivity.
Defined.

(** X5: for a token without a NUL byte, shorter than 32768 characters,
    that begins with [-] only if it is exactly [-], [is_IP] decides the
    documented shape: exactly [-], or digits and dots only with exactly
    three dots and at most 15 characters. *)
Theorem is_IP_decides_dotted_shape (token : string) :
  c_str token = token ->
  Z.of_nat (String.length token) < 32768 ->
  (deref token = "-"%char -> token = "-") ->
  is_IP token
  = (token =? "-")%string
    || (all_chars digit_or_dot token
        && (count_dots token =? 3)
        && (Z.of_nat (String.length token) <=? 15)).
Proof.
  intros Hc Hlen Hdash. unfold is_IP. rewrite Hc.
  destruct (deref token =? "-")%char eqn:E.
  - apply Ascii.eqb_eq in E. rewrite (Hdash E). reflexivity.
  - assert (N : (token =? "-")%string = false).
    { apply String.eqb_neq. intros ->. discriminate E. }
    rewrite N, is_IP_loop_small by lia. reflexivity.
Qed.

Lemma is_IP_decides_dotted_shape_witness :
  is_IP "999.1.22.333"
  = ("999.1.22.333" =? "-")%string
    || (all_chars digit_or_dot "999.1.22.333"
        && (count_dots "999.1.22.333" =? 3)
        && (Z.of_nat (String.length "999.1.22.333") <=? 15)).
Proof.
  apply (is_IP_decides_dotted_shape "999.1.22.333").
  - reflexivity.
  - vm_compute. reflexivity.
  - intros E. vm_compute in E. discriminate E.
Defined.

(** ** The normaliser *)

(** X6: every token [logtimeToUnix] returns, the placeholder [-]
    included, passes [is_numeric]; so [validate] in the TIME state accepts
    it in strict mode too and moves on to the method. *)
Theorem logtime_token_passes_validation `{Libc} (tz : Z)
  (logtime converted : string) :
  logtimeToUnix tz logtime = Ok converted ->
  is_numeric converted = true /\
  validate false TIME converted = Ok URL_METHOD.
Proof.
  intros E. apply logtimeToUnix_numeric in E.
  split; [exact E |]. cbn. unfold IF_VALID. rewrite E. reflexivity.
Qed.

Lemma logtime_token_passes_validation_witness :
  is_numeric "1333517849" = true /\
  validate false TIME "1333517849" = Ok URL_METHOD.
Proof.
  apply (logtime_token_passes_validation 0 "04/Apr/2012:10:37:29 -0500"
           "1333517849").
  vm_compute. reflexivity.
Defined.

(** X7: a timestamp of the documented shape (2 digits, 3 letters, 4
    digits, three times 2 digits, a sign and 4 digits) is 26 characters
    long, so the reads of [logtime[21..25]] stay inside it and
    [logtimeToUnix] returns a token, whatever [strptime] and [mktime]
    answer. *)
Theorem logtime_of_documented_shape_is_defined `{Libc} (tz : Z)
  (logtime : string) :
  well_formed_logtime logtime = true ->
  String.length logtime = 26%nat /\
  exists converted, logtimeToUnix tz logtime = Ok converted.
Proof.
  intros W. split.
  - apply has_shape_length in W. exact W.
  - exact (logtimeToUnix_well_formed tz logtime W).
Qed.

Lemma logtime_of_documented_shape_is_defined_witness :
  String.length "31/Dec/1999:23:59:59 +0130" = 26%nat /\
  exists converted,
    logtimeToUnix 0 "31/Dec/1999:23:59:59 +0130" = Ok converted.
Proof.
  apply (logtime_of_documented_shape_is_defined 0 "31/Dec/1999:23:59:59 +0130").
  vm_compute. reflexivity.
Defined.

Lemma get_past (s : string) :
  forall p : nat, (String.length s <= p)%nat -> String.get p s = None.
Proof.
  induction s as [| c s IH]; intros p Hp; cbn; [reflexivity |].
  cbn in Hp. destruct p as [| p]; [lia |]. apply IH. lia.
Qed.

Lemma at_index_past (s : string) (i : nat) :
  (String.length s < i)%nat -> at_index s i = Undefined ReadPastEnd.
Proof.
  intros Hi. unfold at_index. rewrite get_past by lia.
  replace (i =? String.length s)%nat with false
    by (symmetry; apply Nat.eqb_neq; lia).
  reflexivity.
Qed.

(** X8: the zone digits are read at fixed indices without a length
    check: when [strptime] accepts a string of fewer than 25 characters,
    [logtimeToUnix] reads past the end of the string. *)
Theorem logtime_short_reads_past_end `{Libc} (tz : Z) (logtime : string)
  (t : tm) :
  strptime (c_str logtime) logtime_format = Some t ->
  (String.length logtime < 25)%nat ->
  logtimeToUnix tz logtime = Undefined ReadPastEnd.
Proof.
  intros Hp Hlen. unfold logtimeToUnix. rewrite Hp.
  destruct (le_lt_dec 22 (String.length logtime)) as [L22 | L22];
    [| rewrite (at_index_past logtime 22) by lia; reflexivity].
  destruct (at_index_defined logtime 22 L22) as [c22 ->]; cbn [bind].
  destruct (le_lt_dec 23 (String.length logtime)) as [L23 | L23];
    [| rewrite (at_index_past logtime 23) by lia; reflexivity].
  destruct (at_index_defined logtime 23 L23) as [c23 ->]; cbn [bind].
  destruct (le_lt_dec 24 (String.length logtime)) as [L24 | L24];
    [| rewrite (at_index_past logtime 24) by lia; reflexivity].
  destruct (at_index_defined logtime 24 L24) as [c24 ->]; cbn [bind].
  rewrite (at_index_past logtime 25) by lia. reflexivity.
Qed.

Lemma logtime_short_reads_past_end_witness :
  logtimeToUnix 0 "04/Apr/2012:10:37:29" = Undefined ReadPastEnd.
Proof.
  apply (logtime_short_reads_past_end 0 "04/Apr/2012:10:37:29"
           (mk_tm 29 37 10 4 3 112 0)).
  - vm_compute. reflexivity.
  - vm_compute. lia.
Defined.

(** X9: [t -= timezone] undoes the host offset that [mktime] applies.
    With a C library whose [mktime] moves with the host offset second for
    second, two hosts that both return a number for a timestamp return
    the same number; the host offset can only decide whether [mktime]
    hits [-1], which the code reports as [-]. *)
Theorem logtime_host_offset_cancels `{Libc} (tz1 tz2 : Z)
  (logtime r1 r2 : string) :
  (forall (tz : Z) (t : tm), mktime tz t = mktime 0 t + tz) ->
  logtimeToUnix tz1 logtime = Ok r1 ->
  logtimeToUnix tz2 logtime = Ok r2 ->
  r1 = r2 \/ r1 = "-" \/ r2 = "-".
Proof.
  intros Hshift. unfold logtimeToUnix.
  destruct (strptime (c_str logtime) logtime_format) as [t |];
    [| intros E; inversion E; auto].
  repeat match goal with
         | |- context [bind (at_index ?s ?i) _] =>
             destruct (at_index s i); cbn [bind]; try discriminate
         end.
  rewrite (Hshift tz1), (Hshift tz2).
  destruct (_ =? -1); [intros E; inversion E; auto |].
  destruct (_ =? -1); [intros _ E; inversion E; auto |].
  intros E1 E2. inversion E1. inversion E2. left.
  f_equal. lia.
Qed.

Lemma logtime_host_offset_cancels_witness :
  "1333517849" = "1333517849" \/ "1333517849" = "-" \/ "1333517849" = "-".
Proof.
  apply (logtime_host_offset_cancels (-3600) 28800
           "04/Apr/2012:10:37:29 -0500" "1333517849" "1333517849").
  - intros tz t. cbn [mktime glibc]. unfold Glibc.mktime. lia.
  - vm_compute. reflexivity.
  - vm_compute. reflexivity.
Defined.

(** ** The scanner, one character at a time *)

Lemma empty_push_char (tok : string) (c : ascii) :
  empty (push_char tok c) = false.
Proof. unfold push_char. destruct tok; reflexivity. Qed.

Lemma append_assoc_local (a b c : string) :
  ((a ++ b) ++ c)%string = (a ++ (b ++ c))%string.
Proof.
  induction a as [| x a IH]; cbn; [reflexivity | rewrite IH; reflexivity].
Qed.

Lemma length_append_local (a b : string) :
  String.length (a ++ b) = (String.length a + String.length b)%nat.
Proof.
  induction a as [| c a IH]; cbn; [reflexivity | rewrite IH; reflexivity].
Qed.

Ltac shape_split E :=
  match type of E with
  | context [(?c =? ?d)%char] => destruct (c =? d)%char eqn:?
  | context [empty ?t] => destruct (empty t) eqn:?
  | context [(?a =? ?b)%nat] => destruct (a =? b)%nat eqn:?
  | context [validate ?a ?b ?c] => destruct (validate a b c) eqn:?
  | context [logtimeToUnix ?a ?b] => destruct (logtimeToUnix a b) eqn:?
  | context [lookback ?a ?b] => destruct (lookback a b) eqn:?
  end.

(** The six things a loop iteration that returns can have done. *)
Lemma scan_char_shape `{Libc} (skip : bool) (tz : Z) (line : string)
  (it : nat) (c : ascii) (sc sc' : scan) :
  scan_char skip tz line it c sc = Ok sc' ->
  sc' = sc
  \/ sc' = accumulate c sc
  \/ sc' = push_back (accumulate c sc)
  \/ (c = ","%char /\ state sc = IP /\ sc' = push_clear sc)
  \/ (empty (token sc) = false
      /\ exists st, validate skip (state sc) (token sc) = Ok st
                    /\ sc' = mk_scan st (tokens sc ++ [token sc]) EmptyString)
  \/ (state sc = TIME
      /\ exists converted st,
          logtimeToUnix tz (token sc) = Ok converted
          /\ validate skip TIME converted = Ok st
          /\ sc' = mk_scan st (tokens sc ++ [converted]) EmptyString).
Proof.
  destruct sc as [st toks tok].
  unfold scan_char, commit, not_closing_quote.
  cbn [state token tokens].
  intros E.
  destruct st;
    repeat (shape_split E;
            cbn [bind negb andb orb state token tokens accumulate push_back
                 push_clear State_eqb State_index Z.eqb empty] in * ;
            try discriminate;
            rewrite ?empty_push_char in * );
    inversion E; subst; clear E.
  all: try match goal with
           | H1 : (?c =? ?a)%char = true, H2 : (?c =? ?b)%char = true |- _ =>
               apply Ascii.eqb_eq in H1; subst; discriminate H2
           end.
  all: try (left; reflexivity).
  all: try (right; left; reflexivity).
  all: try (right; right; left; reflexivity).
  all: try (right; right; right; left; repeat split; try reflexivity;
            apply Ascii.eqb_eq; assumption).
  all: try (right; right; right; right; left;
            split; [first [reflexivity | assumption] |];
            eexists; split; first [reflexivity | eassumption]).
  all: try (right; right; right; right; right; split; [reflexivity |];
            do 2 eexists; repeat split; first [reflexivity | eassumption]).
Qed.

Lemma scan_char_time_not_thrown `{Libc} (skip : bool) (tz : Z) (line : string)
  (it : nat) (c : ascii) (sc : scan) (e : string) :
  state sc = TIME -> scan_char skip tz line it c sc <> Throw e.
Proof.
  intros Ht. unfold scan_char. rewrite Ht.
  destruct (negb (c =? "[")%char && negb (c =? "]")%char); [discriminate |].
  destruct (c =? "]")%char; [| discriminate].
  destruct (logtimeToUnix tz (token sc)) as [cv | e' | u] eqn:L; cbn [bind].
  - apply logtimeToUnix_numeric in L. cbn [validate]. unfold IF_VALID.
    rewrite L, orb_true_r. cbn [bind]. discriminate.
  - destruct (logtimeToUnix_not_thrown _ _ _ L).
  - discriminate.
Qed.

Lemma scan_char_reasons `{Libc} (skip : bool) (tz : Z) (line : string)
  (it : nat) (c : ascii) (sc : scan) (e : string) :
  scan_char skip tz line it c sc = Throw e ->
  skip = false /\ In e strict_reasons.
Proof.
  intros E.
  pose proof (scan_char_outcome skip tz line it c sc) as O. rewrite E in O.
  destruct O as [tok V]. apply validate_throw_inv in V.
  destruct V as [-> V]. split; [reflexivity |].
  destruct V as [[_ ->] | [[_ ->] | [[_ ->] | [[Ht _] | [[_ ->] | [[_ ->] | [_ ->]]]]]]];
    cbn; auto 10.
  destruct (scan_char_time_not_thrown _ _ _ _ _ _ _ Ht E).
Qed.

Lemma validate_strict_permissive (st st' : State) (tok : string) :
  validate false st tok = Ok st' -> validate true st tok = Ok st'.
Proof.
  destruct st; cbn; unfold IF_VALID; cbn [orb];
    try match goal with |- context [if ?b then _ else _] => destruct b end;
    try discriminate; auto.
Qed.

Lemma scan_char_strict_permissive `{Libc} (tz : Z) (line : string)
  (it : nat) (c : ascii) (sc sc' : scan) :
  scan_char false tz line it c sc = Ok sc' ->
  scan_char true tz line it c sc = Ok sc'.
Proof.
  destruct sc as [st toks tok].
  unfold scan_char, commit, not_closing_quote.
  cbn [state token tokens].
  intros E.
  destruct st;
    repeat (shape_split E;
            cbn [bind negb andb orb state token tokens accumulate push_back
                 push_clear State_eqb State_index Z.eqb empty] in * ;
            try discriminate;
            rewrite ?empty_push_char in * );
    repeat match goal with
           | V : validate false ?s ?t = Ok ?a |- _ =>
               rewrite (validate_strict_permissive s a t V); clear V
           end;
    cbn [bind negb andb orb state token tokens accumulate push_back
         push_clear State_eqb State_index Z.eqb empty] in * ;
    rewrite ?empty_push_char in * ;
    try exact E; try discriminate.
Qed.

Lemma scan_char_grows `{Libc} (skip : bool) (tz : Z) (line : string)
  (it : nat) (c : ascii) (sc sc' : scan) :
  scan_char skip tz line it c sc = Ok sc' ->
  exists added : list string,
    tokens sc' = (tokens sc ++ added)%list /\
    State_index (state sc')
    <= State_index (state sc) + Z.of_nat (List.length added).
Proof.
  intros E. apply scan_char_shape in E.
  destruct E as [-> | [-> | [-> | [[_ [_ ->]] | [[_ [st [V ->]]] | [Ht [cv [st [_ [V ->]]]]]]]]]].
  - exists []. rewrite app_nil_r. cbn. split; [reflexivity | lia].
  - exists []. rewrite app_nil_r. cbn. split; [reflexivity | lia].
  - eexists [_]. cbn. split; [reflexivity | lia].
  - eexists [_]. cbn. split; [reflexivity | lia].
  - eexists [_]. cbn [tokens state List.length]. split; [reflexivity |].
    apply validate_advances in V. destruct V as [[-> ->] | V]; lia.
  - eexists [_]. cbn [tokens state List.length]. split; [reflexivity |].
    rewrite Ht. apply validate_advances in V.
    destruct V as [[V _] | V]; [discriminate V | lia].
Qed.

Lemma decimal_nonempty (t : Z) : empty (decimal t) = false.
Proof.
  unfold decimal, NilZero.string_of_int, NilZero.string_of_uint.
  destruct (Z.to_int t) as [d | d]; [| reflexivity].
  destruct d; reflexivity.
Qed.

Lemma logtimeToUnix_nonempty `{Libc} (tz : Z) (logtime converted : string) :
  logtimeToUnix tz logtime = Ok converted -> empty converted = false.
Proof.
  unfold logtimeToUnix.
  destruct (strptime (c_str logtime) logtime_format);
    [| intros E; inversion E; reflexivity].
  repeat match goal with
         | |- bind (at_index ?s ?i) _ = _ -> _ =>
             destruct (at_index s i); cbn [bind]; [ | discriminate | discriminate ]
         end.
  destruct (_ =? -1); intros E; inversion E;
    [reflexivity | apply decimal_nonempty].
Qed.

Lemma scan_char_nonempty `{Libc} (skip : bool) (tz : Z) (line : string)
  (it : nat) (c : ascii) (sc sc' : scan) :
  (c =? ",")%char = false ->
  Forall nonempty (tokens sc) ->
  scan_char skip tz line it c sc = Ok sc' ->
  Forall nonempty (tokens sc').
Proof.
  intros Hc F E. apply scan_char_shape in E.
  destruct E as [-> | [-> | [-> | [[-> _] | [[Hne [st [V ->]]] | [Ht [cv [st [L [V ->]]]]]]]]]];
    cbn [tokens accumulate push_back]; try assumption.
  - apply Forall_app. split; [assumption |]. constructor; [| constructor].
    apply empty_push_char.
  - discriminate Hc.
  - apply Forall_app. split; [assumption |].
    constructor; [exact Hne | constructor].
  - apply Forall_app. split; [assumption |]. constructor; [| constructor].
    exact (logtimeToUnix_nonempty _ _ _ L).
Qed.

Lemma comma_pushes_address `{Libc} (skip : bool) (tz : Z) (line : string)
  (it : nat) (toks : list string) (tok : string) :
  scan_char skip tz line it "," (mk_scan IP toks tok)
  = Ok (mk_scan IP (toks ++ [tok]) EmptyString).
Proof. unfold scan_char. cbn. rewrite andb_false_r. reflexivity. Qed.

Lemma space_without_token `{Libc} (skip : bool) (tz : Z) (line : string)
  (it : nat) (toks : list string) :
  scan_char skip tz line it " " (mk_scan IP toks EmptyString)
  = Ok (mk_scan IP toks EmptyString).
Proof. unfold scan_char. cbn. rewrite andb_false_r. reflexivity. Qed.

(** A space after a token of a simple field runs [validate] and commits;
    the end-of-line test that follows finds the token cleared. *)
Lemma space_commits `{Libc} (skip : bool) (tz : Z) (line : string) (it : nat)
  (sc : scan) :
  In (state sc) [IP; CLIENT; USER; CODE; CONTENT] ->
  empty (token sc) = false ->
  scan_char skip tz line it " " sc = commit skip sc.
Proof.
  intros Hst Hne. unfold scan_char, commit. rewrite Hne.
  cbn in Hst.
  destruct Hst as [E | [E | [E | [E | [E | []]]]]]; rewrite <- E;
    cbn [negb andb bind State_eqb State_index Z.eqb];
    change (negb (" " =? " ")%char && negb (" " =? ",")%char) with false;
    change (" " =? ",")%char with false; cbn [andb];
    destruct (validate skip _ (token sc)); cbn [bind token empty negb];
    rewrite ?andb_false_r; reflexivity.
Qed.

(** ** The scanner over a stretch of the line *)

Lemma scan_loop_app `{Libc} (skip : bool) (tz : Z) (line a b : string) :
  forall (it : nat) (sc : scan),
    scan_loop skip tz line it (a ++ b) sc
    = (sc1 <- scan_loop skip tz line it a sc ;;
       scan_loop skip tz line (it + String.length a) b sc1).
Proof.
  induction a as [| c a IH]; intros it sc;
    cbn [append scan_loop String.length bind].
  - rewrite Nat.add_0_r. reflexivity.
  - destruct (scan_char skip tz line it c sc) as [sc1 | e | u]; cbn [bind];
      [| reflexivity | reflexivity].
    rewrite IH, Nat.add_succ_r. reflexivity.
Qed.

(** Characters of a simple field that are no delimiters and stop before
    the end of the line are appended to the token. *)
Lemma simple_field_accumulates `{Libc} (skip : bool) (tz : Z)
  (line s : string) :
  forall (it : nat) (sc : scan),
    In (state sc) [IP; CLIENT; USER; CODE; CONTENT] ->
    all_chars not_delimiter s = true ->
    (it + String.length s < String.length line)%nat ->
    scan_loop skip tz line it s sc
    = Ok (mk_scan (state sc) (tokens sc) (token sc ++ s)).
Proof.
  induction s as [| c s IH]; intros it sc Hst Hd Hlen; cbn [scan_loop].
  - destruct sc as [st toks tok]. cbn. rewrite append_empty_r_local.
    reflexivity.
  - cbn [all_chars] in Hd. apply andb_prop in Hd. destruct Hd as [Hc Hd].
    cbn [String.length] in Hlen.
    assert (S1 : scan_char skip tz line it c sc = Ok (accumulate c sc)).
    { unfold scan_char. unfold not_delimiter in Hc. rewrite Hc.
      replace (S it =? String.length line)%nat with false
        by (symmetry; apply Nat.eqb_neq; lia).
      cbn in Hst.
      destruct Hst as [<- | [<- | [<- | [<- | [<- | []]]]]]; reflexivity. }
    rewrite S1. cbn [bind].
    rewrite IH; cbn [state tokens token accumulate];
      [| exact Hst | exact Hd | lia].
    unfold push_char. rewrite append_assoc_local. reflexivity.
Qed.

(** The same characters, when they run up to the end of the line, are
    appended and pushed as they are. *)
Lemma simple_field_to_end `{Libc} (skip : bool) (tz : Z) (line s : string) :
  forall (it : nat) (sc : scan),
    In (state sc) [IP; CLIENT; USER; CODE; CONTENT] ->
    all_chars not_delimiter s = true ->
    empty s = false ->
    (it + String.length s = String.length line)%nat ->
    scan_loop skip tz line it s sc
    = Ok (mk_scan (state sc) (tokens sc ++ [token sc ++ s]) (token sc ++ s)).
Proof.
  induction s as [| c s IH]; intros it sc Hst Hd Hne Hlen;
    [discriminate Hne |].
  cbn [all_chars] in Hd. apply andb_prop in Hd. destruct Hd as [Hc Hd].
  unfold not_delimiter in Hc. apply andb_prop in Hc. destruct Hc as [Hsp Hco].
  apply negb_true_iff in Hsp, Hco.
  cbn [String.length] in Hlen. cbn [scan_loop].
  destruct s as [| c' s'].
  - rewrite end_of_line_push_skips_validate; try assumption;
      [| cbn [String.length] in Hlen; lia].
    reflexivity.
  - assert (S1 : scan_char skip tz line it c sc = Ok (accumulate c sc)).
    { unfold scan_char. rewrite Hsp, Hco.
      replace (S it =? String.length line)%nat with false
        by (symmetry; apply Nat.eqb_neq; cbn [String.length] in Hlen; lia).
      cbn in Hst.
      destruct Hst as [<- | [<- | [<- | [<- | [<- | []]]]]]; reflexivity. }
    rewrite S1. cbn [bind].
    rewrite IH; cbn [state tokens token accumulate];
      [| exact Hst | exact Hd | reflexivity | lia].
    unfold push_char. rewrite !append_assoc_local. reflexivity.
Qed.

Lemma scan_loop_spaces `{Libc} (skip : bool) (tz : Z) (line : string)
  (n : nat) :
  forall it : nat,
    scan_loop skip tz line it (replicate n " ") scan_start = Ok scan_start.
Proof.
  induction n as [| n IH]; intros it; cbn [replicate scan_loop];
    [reflexivity |].
  unfold scan_start at 1. rewrite space_without_token. cbn [bind]. apply IH.
Qed.

Lemma scan_loop_nonempty `{Libc} (skip : bool) (tz : Z) (line rest : string) :
  forall (it : nat) (sc sc' : scan),
    all_chars not_comma rest = true ->
    Forall nonempty (tokens sc) ->
    scan_loop skip tz line it rest sc = Ok sc' ->
    Forall nonempty (tokens sc').
Proof.
  induction rest as [| c rest IH]; intros it sc sc' Hc F; cbn [scan_loop].
  - intros E. inversion E. subst. exact F.
  - cbn [all_chars] in Hc. apply andb_prop in Hc. destruct Hc as [Hc Hrest].
    destruct (scan_char skip tz line it c sc) as [sc1 | e | u] eqn:S1;
      cbn [bind]; try discriminate.
    apply (IH (S it) sc1 sc' Hrest).
    apply (scan_char_nonempty skip tz line it c sc sc1); try assumption.
    unfold not_comma in Hc.
    destruct (c =? ",")%char; [discriminate Hc | reflexivity].
Qed.

(** ** What a scan can do *)

(** X10: the scan never reads the line outside its bounds, neither before
    its begin nor past its end: when [scanCLF] has no defined behaviour,
    the read that left a string is one of [logtime[21..25]] in
    [logtimeToUnix]. *)
Theorem scan_reads_stay_inside_line `{Libc} (skip : bool) (tz : Z)
  (line : string) (u : fault) :
  scan_tokens skip tz line = Undefined u -> u = ReadPastEnd.
Proof. exact (scan_tokens_fault skip tz line u). Qed.

Lemma scan_reads_stay_inside_line_witness : ReadPastEnd = ReadPastEnd.
Proof.
  apply (scan_reads_stay_inside_line false 0 line_short_time ReadPastEnd).
  vm_compute. reflexivity.
Defined.

(** X11: a scan throws only in strict mode, and only one of six literals:
    those of the address, the client identity, the user, the path, the
    status code and the content length.  [TIME is not numeric.] is never
    thrown. *)
Theorem strict_scan_throws_six_reasons `{Libc} (skip : bool) (tz : Z)
  (line e : string) :
  scan_tokens skip tz line = Throw e ->
  skip = false /\ In e strict_reasons.
Proof.
  unfold scan_tokens.
  assert (L : forall rest it sc,
             scan_loop skip tz line it rest sc = Throw e ->
             skip = false /\ In e strict_reasons).
  { induction rest as [| c rest IH]; intros it sc; cbn [scan_loop];
      [discriminate |].
    destruct (scan_char skip tz line it c sc) as [sc1 | e1 | u] eqn:S1;
      cbn [bind]; try discriminate.
    - apply IH.
    - intros X. inversion X. subst.
      exact (scan_char_reasons _ _ _ _ _ _ _ S1). }
  destruct (scan_loop skip tz line 0 line scan_start) as [sc | e1 | u] eqn:E;
    cbn [bind]; try discriminate.
  intros X. inversion X. subst. exact (L _ _ _ E).
Qed.

Lemma strict_scan_throws_six_reasons_witness :
  false = false /\ In "Client identity unsupported." strict_reasons.
Proof.
  apply (strict_scan_throws_six_reasons false 0 "9.9.9.9 nobody "
           "Client identity unsupported.").
  vm_compute. reflexivity.
Defined.

(** X12: validation only rejects: a line that strict mode accepts gives
    the same record in permissive mode. *)
Theorem strict_record_is_permissive_record `{Libc} (tz : Z) (line : string)
  (toks : list string) :
  scan_tokens false tz line = Ok toks ->
  scan_tokens true tz line = Ok toks.
Proof.
  unfold scan_tokens.
  assert (L : forall rest it sc sc',
             scan_loop false tz line it rest sc = Ok sc' ->
             scan_loop true tz line it rest sc = Ok sc').
  { induction rest as [| c rest IH]; intros it sc sc'; cbn [scan_loop];
      [auto |].
    destruct (scan_char false tz line it c sc) as [sc1 | e1 | u] eqn:S1;
      cbn [bind]; try discriminate.
    rewrite (scan_char_strict_permissive _ _ _ _ _ _ S1). cbn [bind].
    apply IH. }
  destruct (scan_loop false tz line 0 line scan_start) as [sc | e1 | u] eqn:E;
    cbn [bind]; try discriminate.
  rewrite (L _ _ _ _ E). cbn [bind]. auto.
Qed.

Lemma strict_record_is_permissive_record_witness :
  scan_tokens true 0 sample_line
  = Ok ["1.2.3.4"; "-"; "-"; "1333517849"; "GET"; "/x"; "HTTP/1.0"; "200"; "512"].
Proof.
  apply (strict_record_is_permissive_record 0 sample_line).
  vm_compute. reflexivity.
Defined.

(** X13: over any stretch of a scan the token list only grows at its end,
    and the state advances by at most one enumerator for each entry
    added: no entry is dropped or changed once pushed, and every field
    that was validated has left an entry. *)
Theorem tokens_only_grow `{Libc} (skip : bool) (tz : Z) (line rest : string) :
  forall (it : nat) (sc sc' : scan),
    scan_loop skip tz line it rest sc = Ok sc' ->
    exists added : list string,
      tokens sc' = (tokens sc ++ added)%list /\
      State_index (state sc')
      <= State_index (state sc) + Z.of_nat (List.length added).
Proof.
  induction rest as [| c rest IH]; intros it sc sc'; cbn [scan_loop].
  - intros E. inversion E. exists []. rewrite app_nil_r. cbn.
    split; [reflexivity | lia].
  - destruct (scan_char skip tz line it c sc) as [sc1 | e | u] eqn:S1;
      cbn [bind]; try discriminate.
    intros E. apply IH in E. apply scan_char_grows in S1.
    destruct S1 as [a1 [T1 I1]], E as [a2 [T2 I2]].
    exists (a1 ++ a2)%list. rewrite T2, T1, app_assoc, length_app.
    split; [reflexivity | lia].
Qed.

Lemma tokens_only_grow_witness :
  exists added : list string,
    tokens (mk_scan USER ["1.2.3.4"; "-"] EmptyString)
    = (tokens scan_start ++ added)%list /\
    State_index (state (mk_scan USER ["1.2.3.4"; "-"] EmptyString))
    <= State_index (state scan_start) + Z.of_nat (List.length added).
Proof.
  apply (tokens_only_grow false 0 "1.2.3.4 - " "1.2.3.4 - " 0%nat scan_start
           (mk_scan USER ["1.2.3.4"; "-"] EmptyString)).
  vm_compute. reflexivity.
Defined.

(** X14: the only push that is not guarded by a test for an empty token
    is the one at a comma: the record of a line without a comma has no
    empty entry, in either mode. *)
Theorem no_comma_no_empty_entry `{Libc} (skip : bool) (tz : Z) (line : string)
  (toks : list string) :
  all_chars not_comma line = true ->
  scan_tokens skip tz line = Ok toks ->
  Forall nonempty toks.
Proof.
  intros Hc. unfold scan_tokens.
  destruct (scan_loop skip tz line 0 line scan_start) as [sc | e | u] eqn:E;
    cbn [bind]; try discriminate.
  intros X. inversion X. subst.
  apply (scan_loop_nonempty skip tz line line 0%nat scan_start sc Hc);
    [constructor | exact E].
Qed.

Lemma no_comma_no_empty_entry_witness :
  Forall nonempty
    ["1.2.3.4"; "-"; "-"; "1333517849"; "GET"; "/x"; "HTTP/1.0"; "200"; "512"].
Proof.
  apply (no_comma_no_empty_entry false 0 sample_line).
  - vm_compute. reflexivity.
  - vm_compute. reflexivity.
Defined.

(** X15: an empty line and a line of spaces are no error in either mode:
    the scan returns no entry and the driver writes an empty record, a
    lone line break, to the output. *)
Theorem blank_line_gives_empty_record `{Libc} (skip : bool) (tz : Z) (n : nat)
  (w : World) :
  scan_tokens skip tz (replicate n " ") = Ok [] /\
  main_turn (replicate n " ") w = Some (write_cout w endl).
Proof.
  assert (T : forall sk z, scan_tokens sk z (replicate n " ") = Ok []).
  { intros sk z. unfold scan_tokens. rewrite scan_loop_spaces. reflexivity. }
  split; [apply T |].
  rewrite main_turn_appends, T. reflexivity.
Qed.

(** ** Tokens that are committed without validation *)

(** X16: whatever ends the line as a token of a simple field is pushed
    without validation: after the address [-], any non-empty token without
    a delimiter that runs to the end of the line becomes the second entry,
    in strict mode too. *)
Theorem last_token_is_not_validated `{Libc} (skip : bool) (tz : Z)
  (tok : string) :
  all_chars not_delimiter tok = true ->
  empty tok = false ->
  scan_tokens skip tz ("- " ++ tok) = Ok ["-"; tok].
Proof.
  intros Hd Hne. unfold scan_tokens.
  change ("- " ++ tok)%string with ("-" ++ (" " ++ tok))%string at 2.
  rewrite scan_loop_app.
  rewrite simple_field_accumulates;
    [| cbn; auto | reflexivity | cbn [String.length append]; lia].
  cbn [bind state tokens token scan_start append Nat.add String.length
       scan_loop].
  rewrite space_commits; [| cbn; auto | reflexivity].
  unfold commit. cbn [state token tokens validate].
  unfold IF_VALID. change (is_IP "-") with true. rewrite orb_true_r.
  cbn [bind app].
  rewrite simple_field_to_end;
    [ reflexivity | cbn; auto | exact Hd | exact Hne
    | cbn [String.length append]; lia ].
Qed.

Lemma last_token_is_not_validated_witness :
  scan_tokens false 0 ("- " ++ "rfc1413") = Ok ["-"; "rfc1413"].
Proof.
  apply (last_token_is_not_validated false 0 "rfc1413"); reflexivity.
Defined.

(** X17: an address that is followed by a comma is pushed without
    validation: whatever stands before the comma, without a delimiter in
    it, becomes the first entry of the record, in strict mode too. *)
Theorem address_before_comma_is_not_validated `{Libc} (skip : bool) (tz : Z)
  (junk : string) :
  all_chars not_delimiter junk = true ->
  scan_tokens skip tz (junk ++ ", -") = Ok [junk; "-"].
Proof.
  intros Hj. unfold scan_tokens.
  rewrite scan_loop_app.
  rewrite simple_field_accumulates;
    [| cbn; auto | exact Hj
     | repeat (rewrite length_append_local || cbn [String.length]); lia].
  cbn [bind state tokens token scan_start append Nat.add scan_loop].
  rewrite comma_pushes_address. cbn [bind app].
  rewrite space_without_token. cbn [bind].
  rewrite end_of_line_push_skips_validate;
    [ reflexivity | cbn; auto | reflexivity | reflexivity
    | repeat (rewrite length_append_local || cbn [String.length]); lia ].
Qed.

Lemma address_before_comma_is_not_validated_witness :
  scan_tokens false 0 ("not/an/address" ++ ", -") = Ok ["not/an/address"; "-"].
Proof.
  apply (address_before_comma_is_not_validated false 0 "not/an/address").
  reflexivity.
Defined.

(** X18: in strict mode, a line that begins with an address [is_IP]
    accepts, a space, a client identity other than [-] and a space is
    rejected with [Client identity unsupported.], whatever follows: the
    driver writes the diagnostic for the line to the error stream and
    nothing to the output. *)
Theorem identity_with_delimiter_is_rejected `{Libc} (tz : Z)
  (address identity rest : string) (w : World) :
  all_chars not_delimiter address = true ->
  empty address = false ->
  is_IP address = true ->
  all_chars not_delimiter identity = true ->
  empty identity = false ->
  (identity =? "-")%string = false ->
  skip_validation w = false ->
  scan_tokens false tz (address ++ " " ++ identity ++ " " ++ rest)
  = Throw "Client identity unsupported." /\
  main_turn (address ++ " " ++ identity ++ " " ++ rest) w
  = Some (write_cerr w
            (error_message "Client identity unsupported."
               (address ++ " " ++ identity ++ " " ++ rest))).
Proof.
  intros Ha Hane Hip Hi Hine Hid Hw.
  assert (T : forall z,
             scan_tokens false z (address ++ " " ++ identity ++ " " ++ rest)
             = Throw "Client identity unsupported.").
  { intros z. unfold scan_tokens.
    rewrite scan_loop_app.
    rewrite simple_field_accumulates;
      [| cbn; auto | exact Ha
       | repeat (rewrite length_append_local || cbn [String.length]); lia].
    cbn [bind state tokens token scan_start append Nat.add scan_loop].
    rewrite space_commits; [| cbn; auto | exact Hane].
    unfold commit at 1. cbn [state token tokens validate].
    unfold IF_VALID. rewrite Hip. cbn [orb bind app].
    rewrite scan_loop_app.
    rewrite simple_field_accumulates;
      [| cbn; auto | exact Hi
       | repeat (rewrite length_append_local || cbn [String.length]); lia].
    cbn [bind state tokens token append scan_loop].
    rewrite space_commits; [| cbn; auto | exact Hine].
    unfold commit at 1. cbn [state token tokens validate].
    unfold IF_VALID. rewrite Hid. reflexivity. }
  split; [apply T |].
  rewrite main_turn_appends, Hw, T. reflexivity.
Qed.

Lemma identity_with_delimiter_is_rejected_witness :
  scan_tokens false 0 ("1.2.3.4" ++ " " ++ "ident" ++ " " ++ "bob [x]")
  = Throw "Client identity unsupported." /\
  main_turn ("1.2.3.4" ++ " " ++ "ident" ++ " " ++ "bob [x]") world_start
  = Some (write_cerr world_start
            (error_message "Client identity unsupported."
               ("1.2.3.4" ++ " " ++ "ident" ++ " " ++ "bob [x]"))).
Proof.
  apply (identity_with_delimiter_is_rejected 0 "1.2.3.4" "ident" "bob [x]"
           world_start); reflexivity.
Defined.

(** ** Quoted fields *)

(** X19: once a referer or a user agent has begun, every character up to
    the next double quote belongs to it, spaces included: a stretch
    without a double quote is appended to the token as it is, and nothing
    is committed. *)
Theorem free_text_keeps_spaces `{Libc} (skip : bool) (tz : Z)
  (line s : string) :
  forall (it : nat) (sc : scan),
    In (state sc) [REFERER; AGENT] ->
    empty (token sc) = false ->
    all_chars not_dquote s = true ->
    scan_loop skip tz line it s sc
    = Ok (mk_scan (state sc) (tokens sc) (token sc ++ s)).
Proof.
  induction s as [| c s IH]; intros it sc Hst Hne Hq; cbn [scan_loop].
  - destruct sc as [st toks tok]. cbn. rewrite append_empty_r_local.
    reflexivity.
  - cbn [all_chars] in Hq. apply andb_prop in Hq. destruct Hq as [Hc Hq].
    assert (S1 : scan_char skip tz line it c sc = Ok (accumulate c sc)).
    { unfold scan_char, not_closing_quote. unfold not_dquote in Hc.
      rewrite Hc, Hne.
      destruct Hst as [<- | [<- | []]]; cbn [bind negb orb andb];
        rewrite orb_true_r; reflexivity. }
    rewrite S1. cbn [bind].
    rewrite IH; cbn [state tokens token accumulate];
      [| exact Hst | apply empty_push_char | exact Hq].
    unfold push_char. rewrite append_assoc_local. reflexivity.
Qed.

Lemma free_text_keeps_spaces_witness :
  scan_loop false 0 EmptyString 0 "/5.0 (X11; Linux)"
    (mk_scan AGENT ["-"] "Mozilla")
  = Ok (mk_scan (state (mk_scan AGENT ["-"] "Mozilla"))
          (tokens (mk_scan AGENT ["-"] "Mozilla"))
          (token (mk_scan AGENT ["-"] "Mozilla") ++ "/5.0 (X11; Linux)")).
Proof.
  apply (free_text_keeps_spaces false 0 EmptyString "/5.0 (X11; Linux)"
           0%nat (mk_scan AGENT ["-"] "Mozilla")).
  - cbn. auto.
  - reflexivity.
  - vm_compute. reflexivity.
Defined.

(** X20: in the five quoted states a double quote that follows a
    backslash is content: it is appended to the token (which already
    holds the backslash) and nothing is committed. *)
Theorem escaped_quote_is_content `{Libc} (skip : bool) (tz : Z) (line : string)
  (it : nat) (sc : scan) :
  In (state sc) quote_states ->
  lookback line it = Ok backslash ->
  scan_char skip tz line it dquote sc = Ok (accumulate dquote sc).
Proof.
  intros Hst Hb. unfold scan_char, not_closing_quote. rewrite Hb.
  cbn in Hst.
  destruct Hst as [<- | [<- | [<- | [<- | [<- | []]]]]]; reflexivity.
Qed.

Lemma escaped_quote_is_content_witness :
  scan_char false 0 (String "a" (String backslash (String dquote "b"))) 2
    dquote (mk_scan AGENT [] (String "a" (String backslash EmptyString)))
  = Ok (accumulate dquote
          (mk_scan AGENT [] (String "a" (String backslash EmptyString)))).
Proof.
  apply (escaped_quote_is_content false 0
           (String "a" (String backslash (String dquote "b"))) 2
           (mk_scan AGENT [] (String "a" (String backslash EmptyString)))).
  - cbn. auto 10.
  - reflexivity.
Defined.

(** ** The driver *)



(** X22: [main] clears the permissive flag before it reads a line and
    nothing sets it afterwards: whatever the flag held, the run ends with
    the flag cleared and the host offset untouched. *)
Theorem main_runs_strict `{Libc} (stdin : list string) (w w' : World) :
  main stdin w = Some w' ->
  skip_validation w' = false /\ timezone w' = timezone w.
Proof.
  unfold main. intros E. apply main_loop_globals in E. exact E.
Qed.

Lemma main_runs_strict_witness :
  skip_validation world_after = false /\
  timezone world_after = timezone (mk_World true 0 EmptyString EmptyString).
Proof.
  apply (main_runs_strict lines_between
           (mk_World true 0 EmptyString EmptyString) world_after).
  vm_compute. reflexivity.
Defined.

(** ** The output loop *)

Lemma split_at_separator (t : string) :
  forall (t' r1 r2 : string) (c1 c2 : ascii),
    plain t -> plain t' ->
    is_separator c1 = true -> is_separator c2 = true ->
    (t ++ String c1 r1)%string = (t' ++ String c2 r2)%string ->
    t = t' /\ c1 = c2 /\ r1 = r2.
Proof.
  unfold plain.
  induction t as [| x t IH]; intros [| y t'] r1 r2 c1 c2 P P' S1 S2 E;
    cbn [append all_chars] in *.
  - inversion E. auto.
  - inversion E. subst. apply andb_prop in P'. destruct P' as [P' _].
    rewrite S1 in P'. discriminate P'.
  - inversion E. subst. apply andb_prop in P. destruct P as [P _].
    rewrite S2 in P. discriminate P.
  - inversion E. subst.
    apply andb_prop in P, P'. destruct P as [_ P], P' as [_ P'].
    destruct (IH t' r1 r2 c1 c2 P P' S1 S2 H1) as [-> [-> ->]]. auto.
Qed.

(** X23: the record line tells the entries apart: two non-empty token
    lists whose tokens hold neither a tab nor a line break are printed to
    the same text only if they are the same list. *)
Theorem print_tokens_injective (a : list string) :
  forall b : list string,
    a <> [] -> b <> [] ->
    Forall plain a -> Forall plain b ->
    print_tokens a = print_tokens b ->
    a = b.
Proof.
  induction a as [| t ra IH]; intros [| t' rb] Ha Hb Pa Pb E;
    try congruence.
  inversion Pa as [| ? ? Pt Pra]. inversion Pb as [| ? ? Pt' Prb]. subst.
  cbn [print_tokens] in E. unfold endl in E.
  destruct ra as [| t2 ra]; destruct rb as [| t2' rb].
  - apply split_at_separator in E; try assumption; try reflexivity.
    destruct E as [-> _]. reflexivity.
  - apply split_at_separator in E; try assumption; try reflexivity.
    destruct E as [_ [E _]]. discriminate E.
  - apply split_at_separator in E; try assumption; try reflexivity.
    destruct E as [_ [E _]]. discriminate E.
  - apply split_at_separator in E; try assumption; try reflexivity.
    destruct E as [-> [_ E]].
    f_equal. apply IH; try assumption; discriminate.
Qed.

Lemma print_tokens_injective_witness :
  ["1.2.3.4"; "-"; "bob"] = ["1.2.3.4"; "-"; "bob"].
Proof.
  apply (print_tokens_injective ["1.2.3.4"; "-"; "bob"]
           ["1.2.3.4"; "-"; "bob"]).
  - discriminate.
  - discriminate.
  - repeat constructor.
  - repeat constructor.
  - reflexivity.
Defined.
